(** * Spot price illuminator for the Shelly Plus Plug

    A shallow embedding of [shelly/index.js]: the colour conversions, the
    validation of the price/colour map, the response handler with its
    descending scan, the quarter-hour gate of [tick] and the connectivity
    event handler, followed by the properties proved about them.

    Conventions of the embedding.
    - The script runs on the device's script engine, where [die(msg)] stops
      the script and an uncaught runtime error (a property read on
      [undefined] or [null], a [JSON.parse] failure) stops it too.  Both are
      results of type [outcome]: [Fatal (Died msg)] and [Fatal (Threw what)].
    - Numbers of the configuration (price floors, brightness) and prices
      are carried by their exact rational value; [>=], [<=] and [>] on
      them are exact.  The one place where binary64 rounding matters, the
      product by [0.392156] under [Math.round], is computed on primitive
      binary64 floats.
    - [>=] on a value that is not a number coerces it as the language
      standard says: [undefined] to [NaN], [null] to 0, a boolean to 0 or
      1, a string to the binary64 number it spells between white space or
      to [NaN], an object or an array through its string form, which fails
      for an object with a member named [toString]; a comparison with
      [NaN] is false.
    - A string is the sequence of its UTF-8 bytes.
    - [s.at(i)] of the engine yields the character code at index [i], or
      [undefined] past the end; [s.slice(a, b)] clips at the end of [s]. *)

From Stdlib Require Import ZArith QArith Qround List String Ascii Bool Lia Floats Sorted.
Import ListNotations.

Set Warnings "-inexact-float,-register-all".

Local Open Scope string_scope.
Local Open Scope list_scope.
Local Open Scope Z_scope.

(** ** Outcomes of a handler *)

Inductive fatal : Type :=
| Died (msg : string)
| Threw (what : string).

Inductive outcome (A : Type) : Type :=
| Ok (a : A)
| Fatal (f : fatal).

Arguments Ok {A} a.
Arguments Fatal {A} f.

Definition bind {A B : Type} (m : outcome A) (k : A -> outcome B) : outcome B :=
  match m with
  | Ok a => k a
  | Fatal f => Fatal f
  end.

Notation "x <- m ;; k" := (bind m (fun x => k))
  (at level 61, m at next level, right associativity).

Definition die {A : Type} (msg : string) : outcome A := Fatal (Died msg).

Definition is_fatal {A : Type} (m : outcome A) : bool :=
  match m with Ok _ => false | Fatal _ => true end.

(** ** Numbers *)

(** A script number as far as comparisons see it. *)
Inductive number : Type :=
| NaN
| NegInf
| Fin (q : Q)
| PosInf.

(** [Math.round]: the nearest integer, ties towards plus infinity. *)
Definition Math_round (v : float) : number :=
  match Prim2SF v with
  | S754_zero _ => Fin 0
  | S754_infinity false => PosInf
  | S754_infinity true => NegInf
  | S754_nan => NaN
  | S754_finite s m e =>
      let num := if s then Z.neg m else Z.pos m in
      Fin (inject_Z
             match e with
             | Z.neg k => (2 * num + 2 ^ Z.pos k) / 2 ^ (Z.pos k + 1)
             | _ => num * 2 ^ e
             end)
  end.

(** An integer of the script as the binary64 number it is (exact below
    [2^53]; the callers pass values in [0..255]). *)
Definition to_float (n : Z) : float := PrimFloat.of_uint63 (Uint63.of_Z n).

(** ** Strings *)

Definition at_ (s : string) (i : nat) : option Z :=
  option_map (fun c => Z.of_nat (nat_of_ascii c)) (String.get i s).

Definition slice (s : string) (a b : nat) : string := substring a (b - a) s.

(** ** Colour conversions *)

(* String '0',...,'F' -> 0,...,15 (case agnostic) *)
Definition hexCharToInt (hexChar : option Z) : outcome Z :=
  match hexChar with
  | Some c =>
      if (96 <? c) && (c <? 103) then Ok (10 + (c - 97))
      else if (64 <? c) && (c <? 71) then Ok (10 + (c - 65))
      else if (47 <? c) && (c <? 58) then Ok (c - 48)
      else die "PPI: invalid hex value, crash"
  | None => die "PPI: invalid hex value, crash"
  end.

(* HH string ('A3') -> integer (163) *)
Definition hexToInt (hex : string) : outcome Z :=
  hi <- hexCharToInt (at_ hex 0) ;;
  lo <- hexCharToInt (at_ hex 1) ;;
  Ok (16 * hi + lo).

(** The arithmetic of [hexToShellyColorValue] on the parsed integer. *)
Definition shellyScale (n : Z) : number :=
  Math_round (PrimFloat.mul (to_float n) 0.392156%float).

(* HH string ('A3') -> shelly rgb integer (64 = 163 / 255 * 100) *)
Definition hexToShellyColorValue (hex : string) : outcome number :=
  n <- hexToInt hex ;;
  Ok (shellyScale n).

(* RGB string ('#A300FF') -> [ Shelly rgb integer ] ([64 0 100]) *)
Definition RGBStringToShellyValues (rgbString : string) : outcome (list number) :=
  r <- hexToShellyColorValue (slice rgbString 1 3) ;;
  g <- hexToShellyColorValue (slice rgbString 3 5) ;;
  b <- hexToShellyColorValue (slice rgbString 5 7) ;;
  Ok [r; g; b].

(* CSS color name map *)
Definition COLOR_NAMES : list (string * string) :=
  [ ("aliceblue", "#F0F8FF"); ("antiquewhite", "#FAEBD7"); ("aqua", "#00FFFF");
  ("aquamarine", "#7FFFD4"); ("azure", "#F0FFFF"); ("beige", "#F5F5DC");
  ("bisque", "#FFE4C4"); ("black", "#000000"); ("blanchedalmond", "#FFEBCD");
  ("blue", "#0000FF"); ("blueviolet", "#8A2BE2"); ("brown", "#A52A2A");
  ("burlywood", "#DEB887"); ("cadetblue", "#5F9EA0"); ("chartreuse", "#7FFF00");
  ("chocolate", "#D2691E"); ("coral", "#FF7F50"); ("cornflowerblue", "#6495ED");
  ("cornsilk", "#FFF8DC"); ("crimson", "#DC143C"); ("cyan", "#00FFFF");
  ("darkblue", "#00008B"); ("darkcyan", "#008B8B"); ("darkgoldenrod", "#B8860B");
  ("darkgray", "#A9A9A9"); ("darkgreen", "#006400"); ("darkgrey", "#A9A9A9");
  ("darkkhaki", "#BDB76B"); ("darkmagenta", "#8B008B"); ("darkolivegreen", "#556B2F");
  ("darkorange", "#FF8C00"); ("darkorchid", "#9932CC"); ("darkred", "#8B0000");
  ("darksalmon", "#E9967A"); ("darkseagreen", "#8FBC8F"); ("darkslateblue", "#483D8B");
  ("darkslategray", "#2F4F4F"); ("darkslategrey", "#2F4F4F"); ("darkturquoise", "#00CED1");
  ("darkviolet", "#9400D3"); ("deeppink", "#FF1493"); ("deepskyblue", "#00BFFF");
  ("dimgray", "#696969"); ("dimgrey", "#696969"); ("dodgerblue", "#1E90FF");
  ("firebrick", "#B22222"); ("floralwhite", "#FFFAF0"); ("forestgreen", "#228B22");
  ("fuchsia", "#FF00FF"); ("gainsboro", "#DCDCDC"); ("ghostwhite", "#F8F8FF");
  ("gold", "#FFD700"); ("goldenrod", "#DAA520"); ("gray", "#808080");
  ("green", "#008000"); ("greenyellow", "#ADFF2F"); ("grey", "#808080");
  ("honeydew", "#F0FFF0"); ("hotpink", "#FF69B4"); ("indianred", "#CD5C5C");
  ("indigo", "#4B0082"); ("ivory", "#FFFFF0"); ("khaki", "#F0E68C");
  ("lavender", "#E6E6FA"); ("lavenderblush", "#FFF0F5"); ("lawngreen", "#7CFC00");
  ("lemonchiffon", "#FFFACD"); ("lightblue", "#ADD8E6"); ("lightcoral", "#F08080");
  ("lightcyan", "#E0FFFF"); ("lightgoldenrodyellow", "#FAFAD2"); ("lightgray", "#D3D3D3");
  ("lightgreen", "#90EE90"); ("lightgrey", "#D3D3D3"); ("lightpink", "#FFB6C1");
  ("lightsalmon", "#FFA07A"); ("lightseagreen", "#20B2AA"); ("lightskyblue", "#87CEFA");
  ("lightslategray", "#778899"); ("lightslategrey", "#778899"); ("lightsteelblue", "#B0C4DE");
  ("lightyellow", "#FFFFE0"); ("lime", "#00FF00"); ("limegreen", "#32CD32");
  ("linen", "#FAF0E6"); ("magenta", "#FF00FF"); ("maroon", "#800000");
  ("mediumaquamarine", "#66CDAA"); ("mediumblue", "#0000CD"); ("mediumorchid", "#BA55D3");
  ("mediumpurple", "#9370DB"); ("mediumseagreen", "#3CB371"); ("mediumslateblue", "#7B68EE");
  ("mediumspringgreen", "#00FA9A"); ("mediumturquoise", "#48D1CC"); ("mediumvioletred", "#C71585");
  ("midnightblue", "#191970"); ("mintcream", "#F5FFFA"); ("mistyrose", "#FFE4E1");
  ("moccasin", "#FFE4B5"); ("navajowhite", "#FFDEAD"); ("navy", "#000080");
  ("oldlace", "#FDF5E6"); ("olive", "#808000"); ("olivedrab", "#6B8E23");
  ("orange", "#FFA500"); ("orangered", "#FF4500"); ("orchid", "#DA70D6");
  ("palegoldenrod", "#EEE8AA"); ("palegreen", "#98FB98"); ("paleturquoise", "#AFEEEE");
  ("palevioletred", "#DB7093"); ("papayawhip", "#FFEFD5"); ("peachpuff", "#FFDAB9");
  ("peru", "#CD853F"); ("pink", "#FFC0CB"); ("plum", "#DDA0DD");
  ("powderblue", "#B0E0E6"); ("purple", "#800080"); ("rebeccapurple", "#663399");
  ("red", "#FF0000"); ("rosybrown", "#BC8F8F"); ("royalblue", "#4169E1");
  ("saddlebrown", "#8B4513"); ("salmon", "#FA8072"); ("sandybrown", "#F4A460");
  ("seagreen", "#2E8B57"); ("seashell", "#FFF5EE"); ("sienna", "#A0522D");
  ("silver", "#C0C0C0"); ("skyblue", "#87CEEB"); ("slateblue", "#6A5ACD");
  ("slategray", "#708090"); ("slategrey", "#708090"); ("snow", "#FFFAFA");
  ("springgreen", "#00FF7F"); ("steelblue", "#4682B4"); ("tan", "#D2B48C");
  ("teal", "#008080"); ("thistle", "#D8BFD8"); ("tomato", "#FF6347");
  ("turquoise", "#40E0D0"); ("violet", "#EE82EE"); ("wheat", "#F5DEB3");
  ("white", "#FFFFFF"); ("whitesmoke", "#F5F5F5"); ("yellow", "#FFFF00");
  ("yellowgreen", "#9ACD32") ].

Fixpoint lookupColor (names : list (string * string)) (name : string) : option string :=
  match names with
  | [] => None
  | (n, rgb) :: rest => if String.eqb n name then Some rgb else lookupColor rest name
  end.

Definition colorNameToRGBString (name : string) : outcome string :=
  match lookupColor COLOR_NAMES name with
  | Some rgb => Ok rgb
  | None => die (String.append "PPI: color " (String.append name " not in color map - crash"))
  end.

Definition brightnessInRange (brightness : Q) : bool :=
  Qle_bool 0 brightness && Qle_bool brightness 100.

(** ** Parsed JSON and the coercions of the relational operators *)

(** What [JSON.parse] returns.  A number is carried by its exact value,
    and one too large for binary64 is the infinity it parses to; a string
    is the sequence of its UTF-8 bytes; an object keeps its members in the
    order of the text. *)
Inductive json : Type :=
| JNull
| JBool (b : bool)
| JNumber (q : Q)
| JInfinity (negative : bool)
| JString (s : string)
| JArray (items : list json)
| JObject (members : list (string * json)).

(** The last member named [name] wins, as in [JSON.parse]. *)
Fixpoint lookupMember (name : string) (members : list (string * json)) : option json :=
  match members with
  | [] => None
  | (k, v) :: rest =>
      match lookupMember name rest with
      | Some w => Some w
      | None => if String.eqb k name then Some v else None
      end
  end.

(** [v.name]: a runtime error on [null], [undefined] (here [None]) where
    the property is missing or [v] is a primitive or an array. *)
Definition getProperty (v : json) (name : string) : outcome (option json) :=
  match v with
  | JNull => Fatal (Threw "TypeError: cannot read property of null")
  | JObject members => Ok (lookupMember name members)
  | _ => Ok None
  end.

Definition bytes (codes : list nat) : string :=
  fold_right (fun n s => String (ascii_of_nat n) s) EmptyString codes.

(** The white space and line terminator characters of the language, in
    UTF-8: TAB, LF, VT, FF, CR, SP, U+00A0, U+1680, U+2000 to U+200A,
    U+2028, U+2029, U+202F, U+205F, U+3000 and U+FEFF. *)
Definition StrWhiteSpaceChars : list string :=
  List.map bytes
    ([[9]; [10]; [11]; [12]; [13]; [32]; [194; 160]; [225; 154; 128]]
     ++ List.map (fun n => [226; 128; n]) (seq 128 11)
     ++ [[226; 128; 168]; [226; 128; 169]; [226; 128; 175]; [226; 129; 159];
         [227; 128; 128]; [239; 187; 191]])%nat%list.

Fixpoint dropPrefix (p s : string) : option string :=
  match p with
  | EmptyString => Some s
  | String a p' =>
      match s with
      | String b s' => if Ascii.eqb a b then dropPrefix p' s' else None
      | EmptyString => None
      end
  end.

Fixpoint dropOneOf (chars : list string) (s : string) : option string :=
  match chars with
  | [] => None
  | c :: rest =>
      match dropPrefix c s with
      | Some t => Some t
      | None => dropOneOf rest s
      end
  end.

(** Drops characters of [chars] from the start of [s] while there are
    some; [fuel] is at least the length of [s]. *)
Fixpoint dropAll (fuel : nat) (chars : list string) (s : string) : string :=
  match fuel with
  | O => s
  | S k =>
      match dropOneOf chars s with
      | Some t => dropAll k chars t
      | None => s
      end
  end.

Fixpoint reverseOnto (s acc : string) : string :=
  match s with
  | String c rest => reverseOnto rest (String c acc)
  | EmptyString => acc
  end.

Definition reverse (s : string) : string := reverseOnto s EmptyString.

Definition trimStart (s : string) : string :=
  dropAll (String.length s) StrWhiteSpaceChars s.

Definition trimEnd (s : string) : string :=
  reverse (dropAll (String.length s) (List.map reverse StrWhiteSpaceChars) (reverse s)).

Definition digitValue (radix : Z) (c : ascii) : option Z :=
  let n := Z.of_nat (nat_of_ascii c) in
  let d := if (47 <? n) && (n <? 58) then n - 48
           else if (96 <? n) && (n <? 123) then n - 87
           else if (64 <? n) && (n <? 91) then n - 55
           else radix in
  if d <? radix then Some d else None.

(** Reads the longest run of digits: its value continuing [acc], how many
    digits were read, and the rest of the string. *)
Fixpoint readDigits (radix : Z) (s : string) (acc : Z) (count : nat) : Z * nat * string :=
  match s with
  | String c rest =>
      match digitValue radix c with
      | Some d => readDigits radix rest (radix * acc + d) (S count)
      | None => (acc, count, s)
      end
  | EmptyString => (acc, count, s)
  end.

Definition readSign (s : string) : bool * string :=
  match s with
  | String "-" rest => (true, rest)
  | String "+" rest => (false, rest)
  | _ => (false, s)
  end.

Definition scaleByTen (mantissa exponent : Z) : Q :=
  match exponent with
  | Z.neg k => Qmake mantissa (Z.to_pos (10 ^ Z.pos k))
  | _ => inject_Z (mantissa * 10 ^ exponent)
  end.

(** The exponent part, if any, then the end of the literal. *)
Definition readExponent (s : string) : option Z :=
  match s with
  | EmptyString => Some 0
  | String c rest =>
      if Ascii.eqb c "e" || Ascii.eqb c "E" then
        let '(neg, rest1) := readSign rest in
        match readDigits 10 rest1 0 0 with
        | (_, O, _) => None
        | (e, _, EmptyString) => Some (if neg then - e else e)
        | _ => None
        end
      else None
  end.

Definition roundHalfEven (n d : Z) : Z :=
  let q := n / d in
  match (2 * (n mod d)) ?= d with
  | Lt => q
  | Gt => q + 1
  | Eq => if Z.even q then q else q + 1
  end.

(** [d * 2^k <= a] *)
Definition reachesPower (a d k : Z) : bool :=
  if 0 <=? k then d * 2 ^ k <=? a else d <=? a * 2 ^ (- k).

Definition scaleByTwo (m e : Z) : Q :=
  match e with
  | Z.neg k => Qred (Qmake m (2 ^ k))
  | _ => inject_Z (m * 2 ^ e)
  end.

(** The binary64 number nearest to [q], ties to the even significand; an
    infinity past the largest one. *)
Definition binary64 (q : Q) : number :=
  let a := Z.abs (Qnum q) in
  let d := Z.pos (Qden q) in
  if a =? 0 then Fin 0
  else
    let k := Z.log2 a - Z.log2 d in
    let fl := if reachesPower a d k then k else k - 1 in
    let e := Z.max (fl - 52) (-1074) in
    let m := if 0 <=? e then roundHalfEven a (d * 2 ^ e)
             else roundHalfEven (a * 2 ^ (- e)) d in
    if (971 <? e) || ((e =? 971) && (m =? 2 ^ 53))
    then (if Qnum q <? 0 then NegInf else PosInf)
    else Fin (scaleByTwo (if Qnum q <? 0 then - m else m) e).

Definition readNonDecimal (radix : Z) (s : string) : number :=
  match readDigits radix s 0 0 with
  | (_, O, _) => NaN
  | (v, _, EmptyString) => binary64 (inject_Z v)
  | _ => NaN
  end.

(** [StringToNumber] of the language: the binary64 value of a trimmed
    [StringNumericLiteral], 0 for a text of white space only, [NaN] for any
    other text. *)
Definition StringToNumber (text : string) : number :=
  match trimEnd (trimStart text) with
  | EmptyString => Fin 0
  | String "0" (String "x" rest) | String "0" (String "X" rest) => readNonDecimal 16 rest
  | String "0" (String "o" rest) | String "0" (String "O" rest) => readNonDecimal 8 rest
  | String "0" (String "b" rest) | String "0" (String "B" rest) => readNonDecimal 2 rest
  | t =>
      let '(neg, u) := readSign t in
      if String.eqb u "Infinity" then (if neg then NegInf else PosInf)
      else
        let '(ip, ni, r1) := readDigits 10 u 0 0 in
        let '(mant, nf, r2) :=
          match r1 with
          | String "." r => readDigits 10 r ip 0
          | _ => (ip, O, r1)
          end in
        match (ni + nf)%nat, readExponent r2 with
        | S _, Some e =>
            let m := if neg then - mant else mant in
            binary64 (scaleByTen m (e - Z.of_nat nf))
        | _, _ => NaN
        end
  end.

Definition cannotConvert : fatal :=
  Threw "TypeError: cannot convert object to primitive value".

Definition hasOwn (name : string) (members : list (string * json)) : bool :=
  match lookupMember name members with
  | Some _ => true
  | None => false
  end.

(** Whether the conversion of a parsed value to a primitive ends: an
    object is converted by the [toString] it inherits unless it has a
    member of that name, which is no function; an array converts each of
    its elements. *)
Fixpoint convertible (v : json) : bool :=
  match v with
  | JObject members => negb (hasOwn "toString" members)
  | JArray items => forallb convertible items
  | _ => true
  end.

(** [ToNumber] on a parsed value.  An object goes through its string form,
    which spells no number.  An array goes through the string forms of its
    elements joined by commas: empty text for [[]], the form of its element
    for a singleton (empty for [null]), a text with a comma for more. *)
Fixpoint ToNumber (v : json) : outcome number :=
  match v with
  | JNull => Ok (Fin 0)
  | JBool b => Ok (Fin (if b then 1 else 0))
  | JNumber q => Ok (Fin q)
  | JInfinity negative => Ok (if negative then NegInf else PosInf)
  | JString s => Ok (StringToNumber s)
  | JArray items =>
      if forallb convertible items then
        match items with
        | [] => Ok (Fin 0)
        | [x] =>
            match x with
            | JBool _ | JObject _ => Ok NaN
            | _ => ToNumber x
            end
        | _ => Ok NaN
        end
      else Fatal cannotConvert
  | JObject members =>
      if hasOwn "toString" members then Fatal cannotConvert else Ok NaN
  end.

Definition ToNumberOrUndefined (v : option json) : outcome number :=
  match v with
  | Some j => ToNumber j
  | None => Ok NaN
  end.

(** [a >= b] with [b] a finite number. *)
Definition number_ge (a : number) (b : Q) : bool :=
  match a with
  | Fin q => Qle_bool b q
  | PosInf => true
  | NegInf | NaN => false
  end.

Definition js_ge (v : option json) (b : Q) : outcome bool :=
  a <- ToNumberOrUndefined v ;;
  Ok (number_ge a b).

(** ** The device and the script's state *)

Record priceColorEntry : Type := {
  fromPriceWithTax : Q;
  color : string;
  onBrightness : Q;
  offBrightness : Q;
  shellyRGB : option (list number)   (* undefined until checkConfig fills it *)
}.

Record colorConfig : Type := {
  rgb : option (list number);
  brightness : Q
}.

(** The part of the [plugs_ui] component configuration the script touches:
    [leds.mode] and [leds.colors["switch:0"].on] and [.off]. *)
Record plugsUiConfig : Type := {
  leds_mode : string;
  switch0_on : colorConfig;
  switch0_off : colorConfig
}.

Inductive rpc : Type :=
| HTTP_GET (url : string) (timeout : Z)
| PLUGS_UI_SetConfig (config : plugsUiConfig).

(** Lines of [console.log]. *)
Inductive logLine : Type :=
| LogStart                            (* PPI: start *)
| LogConnected                        (* PPI: connected *)
| LogDisconnected                     (* PPI: disconnected (go white) *)
| LogIncorrectMode (mode : string)    (* PPI: Incorrect color mode (...) *)
| LogInvalidResponse.                 (* PPI: Backend call invalid response, no color change *)

(** The globals of the script ([priceColorMap], [isConnected]) and the
    device around it: the stored [plugs_ui] configuration, the number of
    [HTTP.GET] calls whose callback has not run yet, every call made so far
    (latest first) and the console (latest first). *)
Record script : Type := {
  priceColorMap : list priceColorEntry;
  isConnected : bool;
  plugs_ui : plugsUiConfig;
  pending : nat;
  calls : list rpc;
  console : list logLine
}.

Definition set_priceColorMap (m : list priceColorEntry) (s : script) : script :=
  {| priceColorMap := m; isConnected := isConnected s; plugs_ui := plugs_ui s;
     pending := pending s; calls := calls s; console := console s |}.

Definition set_isConnected (b : bool) (s : script) : script :=
  {| priceColorMap := priceColorMap s; isConnected := b; plugs_ui := plugs_ui s;
     pending := pending s; calls := calls s; console := console s |}.

Definition set_pending (n : nat) (s : script) : script :=
  {| priceColorMap := priceColorMap s; isConnected := isConnected s; plugs_ui := plugs_ui s;
     pending := n; calls := calls s; console := console s |}.

Definition console_log (l : logLine) (s : script) : script :=
  {| priceColorMap := priceColorMap s; isConnected := isConnected s; plugs_ui := plugs_ui s;
     pending := pending s; calls := calls s; console := l :: console s |}.

(** [Shelly.call("PLUGS_UI.SetConfig", { config }, reportConfigError)]: the
    call is recorded, and [plugs_ui] becomes the configuration sent, the one
    the device holds once it has taken the call.  The completion callback
    [reportConfigError], which logs a refusal and does nothing else, is
    left out: a refusal, and a read of the configuration before the device
    has taken the call, are outside this model. *)
Definition call_SetConfig (config : plugsUiConfig) (s : script) : script :=
  {| priceColorMap := priceColorMap s; isConnected := isConnected s; plugs_ui := config;
     pending := pending s; calls := PLUGS_UI_SetConfig config :: calls s;
     console := console s |}.

(** [Shelly.call("HTTP.GET", ..., handleResponse)]: the call is recorded and
    one more response is awaited. *)
Definition call_HTTP_GET (url : string) (timeout : Z) (s : script) : script :=
  {| priceColorMap := priceColorMap s; isConnected := isConnected s; plugs_ui := plugs_ui s;
     pending := S (pending s); calls := HTTP_GET url timeout :: calls s;
     console := console s |}.

Definition spotHintaRegion : string := "FI".
Definition API_HOST : string := "https://api.spot-hinta.fi".
Definition PRICE_URL : string :=
  String.append API_HOST (String.append "/JustNow?region=" spotHintaRegion).

Definition DEBUG : bool := false.

(** ** The handlers *)

Definition configureLight (shellyRGB : option (list number)) (onBrightness offBrightness : Q)
    (s : script) : script :=
  let onColorConfig := {| rgb := shellyRGB; brightness := onBrightness |} in
  let uiConfig := plugs_ui s in
  if String.eqb (leds_mode uiConfig) "switch" then
    let offColorConfig := {| rgb := rgb onColorConfig; brightness := offBrightness |} in
    call_SetConfig {| leds_mode := leds_mode uiConfig;
                      switch0_on := onColorConfig;
                      switch0_off := offColorConfig |} s
  else console_log (LogIncorrectMode (leds_mode uiConfig)) s.

Definition connected (s : script) : script :=
  set_isConnected true (console_log LogConnected s).

Definition disConnected (s : script) : outcome script :=
  let s1 := console_log LogDisconnected s in
  rgbString <- colorNameToRGBString "white" ;;
  white <- RGBStringToShellyValues rgbString ;;
  Ok (set_isConnected false (configureLight (Some white) 50 10 s1)).

(** A response as the callback sees it: its status code and its body as
    [JSON.parse] reads it, [None] for a text that is not JSON. *)
Record response : Type := {
  code : Z;
  body : option json
}.

(** The [for] loop of [handleResponse], [i] counting down from the length
    of the map; [Some e] is the entry at which the loop calls
    [configureLight] and returns. *)
Fixpoint priceLoop (price : json) (map : list priceColorEntry) (i : nat)
    : outcome (option priceColorEntry) :=
  match i with
  | O => Ok None
  | S j =>
      v <- getProperty price "PriceWithTax" ;;
      match nth_error map j with
      | Some e =>
          hit <- js_ge v (fromPriceWithTax e) ;;
          if hit then Ok (Some e) else priceLoop price map j
      | None => Fatal (Threw "TypeError: cannot read property of undefined")
      end
  end.

Definition handleResponse (resp : option response) (s : script) : outcome (script * bool) :=
  let invalid :=
    s1 <- (if negb (isConnected s) then disConnected s else Ok s) ;;
    Ok (console_log LogInvalidResponse s1, false) in
  match resp with
  | Some r =>
      if code r =? 200 then
        (* We trust that getting a response means online *)
        let s1 := if negb (isConnected s) then connected s else s in
        (* Note! incorrect JSON will crash this script *)
        match body r with
        | None => Fatal (Threw "SyntaxError: JSON.parse")
        | Some price =>
            (* Find the current price level -> set lights *)
            hit <- priceLoop price (priceColorMap s1) (List.length (priceColorMap s1)) ;;
            match hit with
            | Some e =>
                Ok (configureLight (shellyRGB e) (onBrightness e) (offBrightness e) s1, true)
            | None => die "PPI: price not found in color map, crash."
            end
        end
      else invalid
  | None => invalid
  end.

(** [time] is [Shelly.getComponentStatus("sys").time], the text HH:MM. *)
Definition isQuarterOfAnHour (time : string) : outcome bool :=
  let minStr := slice time 3 5 in
  (* use hex conversion because it exists... *)
  tens <- hexCharToInt (at_ minStr 0) ;;
  units <- hexCharToInt (at_ minStr 1) ;;
  let intMinutes := 10 * tens + units in
  Ok (intMinutes mod 15 =? 0).

Definition tick (time : string) (s : script) : outcome script :=
  (* When not connected, poll backend every minute, otherwise every quarter *)
  due <- (if negb (isConnected s) then Ok true
          else if DEBUG then Ok true else isQuarterOfAnHour time) ;;
  if due then Ok (call_HTTP_GET PRICE_URL (if DEBUG then 2 else 10) s) else Ok s.

(** A field of [event.info]: a string or anything else. *)
Inductive infoField : Type :=
| FString (text : string)
| FOther.

Record eventInfo : Type := {
  component : infoField;
  event : infoField
}.

(** What [event.info] holds: an object, [null], whose type the language
    also reports as object, or anything else, a missing property included. *)
Inductive infoValue : Type :=
| InfoObject (i : eventInfo)
| InfoNull
| InfoOther.

Record shellyEvent : Type := {
  info : infoValue
}.

(** [cloud_enable] is [Shelly.getComponentConfig("cloud").enable === true]. *)
Definition handleEvents (cloud_enable : bool) (time : string) (ev : shellyEvent) (s : script)
    : outcome script :=
  match info ev with
  | InfoNull => Fatal (Threw "TypeError: cannot read property of null")
  | InfoObject {| component := FString c; event := FString e |} =>
      s1 <- (if cloud_enable then
               (* If cloud is used, use cloud connect to restore *)
               if String.eqb c "cloud" && String.eqb e "connected" then tick time s else Ok s
             else
               (* else use wifi connect (ip got) *)
               if String.eqb c "wifi" && String.eqb e "sta_ip_acquired" then tick time s
               else Ok s) ;;
      (* Either will do for disconnect *)
      if (String.eqb c "wifi" && String.eqb e "sta_disconnected")
         || (String.eqb c "cloud" && String.eqb e "disconnected")
      then disConnected s1
      else Ok s1
  | _ => Ok s
  end.

(** ** Validation of the configuration *)

Definition Qgt_bool (a b : Q) : bool := negb (Qle_bool a b).

(** The order loop, [previous] being [priceColorMap[i-1].fromPriceWithTax]
    and [rest] the entries from index [i] on. *)
Fixpoint orderLoop (previous : Q) (rest : list priceColorEntry) : outcome unit :=
  match rest with
  | [] => Ok tt
  | e :: rest' =>
      if Qle_bool (fromPriceWithTax e) previous
      then die "PPI: Price map order failure, crash"
      else orderLoop (fromPriceWithTax e) rest'
  end.

Definition onBrightnessMessage (c : string) : string :=
  String.append "PPI: ON brightness (" (String.append c ") out of range, crash").

Definition offBrightnessMessage (c : string) : string :=
  String.append "PPI: OFF brightness (" (String.append c ") out of range, crashing").

Fixpoint brightnessLoop (map : list priceColorEntry) : outcome unit :=
  match map with
  | [] => Ok tt
  | e :: rest =>
      if negb (brightnessInRange (onBrightness e)) then die (onBrightnessMessage (color e))
      else if negb (brightnessInRange (offBrightness e)) then die (offBrightnessMessage (color e))
      else brightnessLoop rest
  end.

Definition set_shellyRGB (v : list number) (e : priceColorEntry) : priceColorEntry :=
  {| fromPriceWithTax := fromPriceWithTax e; color := color e;
     onBrightness := onBrightness e; offBrightness := offBrightness e;
     shellyRGB := Some v |}.

Definition startsWithHash (c : string) : bool :=
  match String.get 0 c with
  | Some ch => Ascii.eqb ch "#"
  | None => false
  end.

Definition entryRGB (e : priceColorEntry) : outcome (list number) :=
  rgbString <- (if startsWithHash (color e) then Ok (color e)
                else colorNameToRGBString (color e)) ;;
  RGBStringToShellyValues rgbString.

(* Precalculate RGB values. *)
Fixpoint precalcLoop (map : list priceColorEntry) : outcome (list priceColorEntry) :=
  match map with
  | [] => Ok []
  | e :: rest =>
      v <- entryRGB e ;;
      rest' <- precalcLoop rest ;;
      Ok (set_shellyRGB v e :: rest')
  end.

Definition checkConfig (s : script) : outcome script :=
  let uiConfig := plugs_ui s in
  let s1 :=
    if negb (String.eqb (leds_mode uiConfig) "switch")
    then call_SetConfig {| leds_mode := "switch";
                           switch0_on := switch0_on uiConfig;
                           switch0_off := switch0_off uiConfig |} s
    else s in
  match priceColorMap s1 with
  | [] => Fatal (Threw "TypeError: cannot read property of undefined")
  | first :: rest =>
      if Qgt_bool (fromPriceWithTax first) 0
      then die "PPI: First price map entry must be <= 0, crash"
      else
        _ <- orderLoop (fromPriceWithTax first) rest ;;
        _ <- brightnessLoop (priceColorMap s1) ;;
        map <- precalcLoop (priceColorMap s1) ;;
        Ok (set_priceColorMap map s1)
  end.

(** ** The script as a transition system *)

(** The state in which the script starts on a device whose [plugs_ui]
    configuration is [ui], with [map] written in the script. *)
Definition boot (map : list priceColorEntry) (ui : plugsUiConfig) : script :=
  {| priceColorMap := map; isConnected := false; plugs_ui := ui;
     pending := 0; calls := []; console := [] |}.

(** The top level of the script: [checkConfig()], then [disConnected()]
    (go white) and the first [tick()]; the event handler and the timer it
    registers are the inputs below. *)
Definition main (time : string) (s : script) : outcome script :=
  s1 <- checkConfig (console_log LogStart s) ;;
  s2 <- disConnected s1 ;;
  tick time s2.

Inductive input : Type :=
| Tick (time : string)
| Event (cloud_enable : bool) (time : string) (ev : shellyEvent)
| Response (resp : option response).

(** One callback runs at a time; a response is delivered only to a call
    that awaits one.  A callback that ends fatally has no successor. *)
Inductive step : script -> input -> script -> Prop :=
| step_tick : forall time s s',
    tick time s = Ok s' -> step s (Tick time) s'
| step_event : forall cloud_enable time ev s s',
    handleEvents cloud_enable time ev s = Ok s' ->
    step s (Event cloud_enable time ev) s'
| step_response : forall resp s n s' b,
    pending s = S n ->
    handleResponse resp (set_pending n s) = Ok (s', b) ->
    step s (Response resp) s'.

Inductive reachable (map : list priceColorEntry) (ui : plugsUiConfig) : script -> Prop :=
| reach_main : forall time s,
    main time (boot map ui) = Ok s -> reachable map ui s
| reach_step : forall s i s',
    reachable map ui s -> step s i s' -> reachable map ui s'.

(** ** The configuration shipped with the script *)

Definition entry (floor : Q) (c : string) (onB offB : Q) : priceColorEntry :=
  {| fromPriceWithTax := floor; color := c; onBrightness := onB;
     offBrightness := offB; shellyRGB := None |}.

Definition defaultPriceColorMap : list priceColorEntry :=
  [ entry (-1.0) "purple" 80 10;
    entry 0.00 "green" 80 10;
    entry 0.09 "turquoise" 50 7;
    entry 0.15 "#FF4500" 50 10;
    entry 0.25 "red" 50 10 ].

(** A device already in switch mode, its LED green at full brightness. *)
Definition switchModeUi : plugsUiConfig :=
  {| leds_mode := "switch";
     switch0_on := {| rgb := Some [Fin 0; Fin 100; Fin 0]; brightness := 100 |};
     switch0_off := {| rgb := Some [Fin 0; Fin 100; Fin 0]; brightness := 100 |} |}.

(** * Properties *)

(** ** Colour conversions *)

(** Rounding to the nearest integer, a half going up. *)
Definition roundNearest (q : Q) : Z := Qfloor (q + (1 # 2)).

(** The channel value [x] of [0..255] on the device's scale of [0..100]. *)
Definition nearestPercent (x : Z) : number :=
  Fin (inject_Z (roundNearest (inject_Z x * 100 / 255))).

Definition agreesAt (x : Z) : bool :=
  match shellyScale x with
  | Fin (Qmake z 1) => z =? roundNearest (inject_Z x * 100 / 255)
  | _ => false
  end.

Lemma agreesAt_sound : forall x, agreesAt x = true -> shellyScale x = nearestPercent x.
Proof.
  intros x. unfold agreesAt, nearestPercent.
  destruct (shellyScale x) as [ | | [z [p|p|]] | ]; try discriminate.
  intros H. apply Z.eqb_eq in H. subst z. reflexivity.
Qed.

Lemma agreesAt_all : forallb agreesAt (List.map Z.of_nat (seq 0 256)) = true.
Proof. vm_compute. reflexivity. Qed.

Lemma shellyScale_nearest : forall x, 0 <= x <= 255 -> shellyScale x = nearestPercent x.
Proof.
  intros x Hx. apply agreesAt_sound.
  pose proof agreesAt_all as Hall. rewrite forallb_forall in Hall. apply Hall.
  replace x with (Z.of_nat (Z.to_nat x)) by lia.
  apply in_map, in_seq. lia.
Qed.

Definition codeOf (c : ascii) : Z := Z.of_nat (nat_of_ascii c).

Ltac split_ltb :=
  repeat match goal with
         | |- context [?a <? ?b] => destruct (Z.ltb_spec a b) as [?|?]
         end.

Lemma hexCharToInt_digit : forall c d,
  digitValue 16 c = Some d ->
  hexCharToInt (Some (codeOf c)) = Ok d /\ 0 <= d <= 15.
Proof.
  intros c d. unfold digitValue, hexCharToInt, codeOf, die.
  generalize (Z.of_nat (nat_of_ascii c)) as n. intros n. cbv zeta.
  split_ltb; cbn [andb] in *; split_ltb; intros E; try discriminate E;
    inversion E; subst d; try lia; (split; [f_equal; lia | lia]).
Qed.

Lemma hexToInt_digits : forall c1 c2 rest d1 d2,
  digitValue 16 c1 = Some d1 -> digitValue 16 c2 = Some d2 ->
  hexToInt (String c1 (String c2 rest)) = Ok (16 * d1 + d2) /\ 0 <= 16 * d1 + d2 <= 255.
Proof.
  intros c1 c2 rest d1 d2 H1 H2.
  destruct (hexCharToInt_digit _ _ H1) as [E1 B1].
  destruct (hexCharToInt_digit _ _ H2) as [E2 B2].
  unfold hexToInt, at_. cbn [String.get option_map Nat.eqb].
  fold (codeOf c1). rewrite E1. cbn [bind].
  fold (codeOf c2). rewrite E2. cbn [bind].
  split; [reflexivity | lia].
Qed.

Lemma hexToShellyColorValue_digits : forall c1 c2 rest d1 d2,
  digitValue 16 c1 = Some d1 -> digitValue 16 c2 = Some d2 ->
  hexToShellyColorValue (String c1 (String c2 rest)) = Ok (nearestPercent (16 * d1 + d2)).
Proof.
  intros c1 c2 rest d1 d2 H1 H2.
  destruct (hexToInt_digits c1 c2 rest d1 d2 H1 H2) as [E B].
  unfold hexToShellyColorValue. rewrite E. cbn [bind].
  rewrite shellyScale_nearest by exact B. reflexivity.
Qed.

Lemma RGBStringToShellyValues_digits : forall c1 c2 c3 c4 c5 c6 rest d1 d2 d3 d4 d5 d6,
  digitValue 16 c1 = Some d1 -> digitValue 16 c2 = Some d2 ->
  digitValue 16 c3 = Some d3 -> digitValue 16 c4 = Some d4 ->
  digitValue 16 c5 = Some d5 -> digitValue 16 c6 = Some d6 ->
  forall marker,
  RGBStringToShellyValues
    (String marker (String c1 (String c2 (String c3 (String c4 (String c5 (String c6 rest)))))))
  = Ok [nearestPercent (16 * d1 + d2); nearestPercent (16 * d3 + d4);
        nearestPercent (16 * d5 + d6)].
Proof.
  intros c1 c2 c3 c4 c5 c6 rest d1 d2 d3 d4 d5 d6 H1 H2 H3 H4 H5 H6 marker.
  unfold RGBStringToShellyValues, slice. cbn [Nat.sub substring].
  rewrite (hexToShellyColorValue_digits c1 c2 _ d1 d2 H1 H2). cbn [bind].
  rewrite (hexToShellyColorValue_digits c3 c4 _ d3 d4 H3 H4). cbn [bind].
  rewrite (hexToShellyColorValue_digits c5 c6 _ d5 d6 H5 H6). cbn [bind].
  reflexivity.
Qed.

(** C4. For every channel value [x] of [0..255] the product by [0.392156],
    rounded by [Math.round] on binary64 numbers, is [x * 100 / 255] rounded
    to the nearest integer; at 163 that is 64, where truncation gives 63.
    A pair of hex digits of either case converts without failure to the
    rounded value of the integer it denotes, and so does every text made of
    a marker and six hex digits, whatever follows them.  The texts
    #FFFFFF, #000000 and #A300FF give (100,100,100), (0,0,0) and
    (64,0,100). *)
Theorem hexToShellyColorValue_rounds_to_nearest :
  (forall x, 0 <= x <= 255 -> shellyScale x = nearestPercent x) /\
  (shellyScale 163 = Fin 64 /\ Qfloor (inject_Z 163 * 100 / 255) = 63) /\
  (forall c1 c2 rest d1 d2,
      digitValue 16 c1 = Some d1 -> digitValue 16 c2 = Some d2 ->
      hexToShellyColorValue (String c1 (String c2 rest))
      = Ok (nearestPercent (16 * d1 + d2))) /\
  (forall c1 c2 c3 c4 c5 c6 rest d1 d2 d3 d4 d5 d6,
      digitValue 16 c1 = Some d1 -> digitValue 16 c2 = Some d2 ->
      digitValue 16 c3 = Some d3 -> digitValue 16 c4 = Some d4 ->
      digitValue 16 c5 = Some d5 -> digitValue 16 c6 = Some d6 ->
      forall marker,
      RGBStringToShellyValues
        (String marker
           (String c1 (String c2 (String c3 (String c4 (String c5 (String c6 rest)))))))
      = Ok [nearestPercent (16 * d1 + d2); nearestPercent (16 * d3 + d4);
            nearestPercent (16 * d5 + d6)]) /\
  RGBStringToShellyValues "#FFFFFF" = Ok [Fin 100; Fin 100; Fin 100] /\
  RGBStringToShellyValues "#000000" = Ok [Fin 0; Fin 0; Fin 0] /\
  RGBStringToShellyValues "#A300FF" = Ok [Fin 64; Fin 0; Fin 100].
Proof.
  split; [exact shellyScale_nearest | ].
  split; [split; vm_compute; reflexivity | ].
  split; [exact hexToShellyColorValue_digits | ].
  split; [exact RGBStringToShellyValues_digits | ].
  repeat split; vm_compute; reflexivity.
Qed.

Lemma hexToShellyColorValue_rounds_to_nearest_witness :
  0 <= 163 <= 255 /\ shellyScale 163 = nearestPercent 163.
Proof.
  split; [lia | ].
  apply (proj1 hexToShellyColorValue_rounds_to_nearest 163). lia.
Defined.

(** ** Validation *)

Definition isHexDigit (c : ascii) : bool :=
  match digitValue 16 c with
  | Some _ => true
  | None => false
  end.

(** The first [n] characters of [s] exist and are hex digits. *)
Fixpoint hexDigitsPrefix (n : nat) (s : string) : bool :=
  match n with
  | O => true
  | S k =>
      match s with
      | String c rest => isHexDigit c && hexDigitsPrefix k rest
      | EmptyString => false
      end
  end.

Definition knownColorName (c : string) : bool :=
  match lookupColor COLOR_NAMES c with
  | Some _ => true
  | None => false
  end.

Definition afterMarker (c : string) : string :=
  match c with
  | String _ rest => rest
  | EmptyString => EmptyString
  end.

(** A well-formed hex colour: the marker and exactly six hex digits. *)
Definition wellFormedHex (c : string) : bool :=
  startsWithHash c && hexDigitsPrefix 6 (afterMarker c) && (String.length c =? 7)%nat.

(** The colour tokens [checkConfig] lets through: a known name, or the
    marker and six hex digits followed by anything. *)
Definition colorAccepted (c : string) : bool :=
  if startsWithHash c then hexDigitsPrefix 6 (afterMarker c) else knownColorName c.

Definition brightnessOk (e : priceColorEntry) : Prop :=
  (0 <= onBrightness e <= 100)%Q /\ (0 <= offBrightness e <= 100)%Q.

Definition floors (map : list priceColorEntry) : list Q :=
  List.map fromPriceWithTax map.

(** The table [checkConfig] lets through. *)
Definition acceptedTable (map : list priceColorEntry) : Prop :=
  (exists first rest, map = first :: rest /\ (fromPriceWithTax first <= 0)%Q) /\
  Sorted Qlt (floors map) /\
  Forall brightnessOk map /\
  Forall (fun e => colorAccepted (color e) = true) map.

Lemma brightnessInRange_iff : forall b,
  brightnessInRange b = true <-> (0 <= b <= 100)%Q.
Proof.
  intros b. unfold brightnessInRange.
  rewrite andb_true_iff, !Qle_bool_iff. reflexivity.
Qed.

Lemma Qgt_bool_iff : forall a b, Qgt_bool a b = true <-> (b < a)%Q.
Proof.
  intros a b. unfold Qgt_bool. rewrite negb_true_iff.
  split.
  - intros H. apply Qnot_le_lt. intros L. apply Qle_bool_iff in L. congruence.
  - intros H. destruct (Qle_bool a b) eqn:E; [ | reflexivity].
    apply Qle_bool_iff in E. exfalso. exact (Qlt_not_le _ _ H E).
Qed.

Lemma orderLoop_cases : forall rest previous,
  (orderLoop previous rest = Ok tt /\ Sorted Qlt (previous :: floors rest)) \/
  (orderLoop previous rest = die "PPI: Price map order failure, crash" /\
   ~ Sorted Qlt (previous :: floors rest)).
Proof.
  induction rest as [ | e rest IH]; intros previous; cbn [orderLoop floors List.map].
  - left. split; [reflexivity | ]. repeat constructor.
  - destruct (Qle_bool (fromPriceWithTax e) previous) eqn:E.
    + right. split; [reflexivity | ]. intros S.
      inversion S as [ | ? ? _ Hd]; subst. inversion Hd as [ | ? ? L]; subst.
      apply Qle_bool_iff in E. exact (Qlt_not_le _ _ L E).
    + assert (L : (previous < fromPriceWithTax e)%Q).
      { apply Qgt_bool_iff. unfold Qgt_bool. rewrite E. reflexivity. }
      destruct (IH (fromPriceWithTax e)) as [[-> S] | [-> N]].
      * left. split; [reflexivity | ]. constructor; [exact S | constructor; exact L].
      * right. split; [reflexivity | ]. intros S. apply N.
        inversion S; subst; assumption.
Qed.

Lemma brightnessLoop_cases : forall map,
  (brightnessLoop map = Ok tt /\ Forall brightnessOk map) \/
  ((exists c, brightnessLoop map = die (onBrightnessMessage c) \/
              brightnessLoop map = die (offBrightnessMessage c)) /\
   ~ Forall brightnessOk map).
Proof.
  induction map as [ | e map IH]; cbn [brightnessLoop].
  - left. split; [reflexivity | constructor].
  - destruct (brightnessInRange (onBrightness e)) eqn:On; cbn [negb].
    + destruct (brightnessInRange (offBrightness e)) eqn:Off; cbn [negb].
      * apply brightnessInRange_iff in On, Off.
        destruct IH as [[-> F] | [[c D] N]].
        -- left. split; [reflexivity | ]. constructor; [split; assumption | exact F].
        -- right. split; [exists c; exact D | ]. intros F. apply N.
           inversion F; subst; assumption.
      * right. split; [exists (color e); right; reflexivity | ].
        intros F. inversion F as [ | ? ? [_ B] _]; subst.
        apply brightnessInRange_iff in B. congruence.
    + right. split; [exists (color e); left; reflexivity | ].
      intros F. inversion F as [ | ? ? [B _] _]; subst.
      apply brightnessInRange_iff in B. congruence.
Qed.

Definition invalidHex : string := "PPI: invalid hex value, crash".

Definition unknownColor (name : string) : string :=
  String.append "PPI: color " (String.append name " not in color map - crash").

Lemma hexCharToInt_nondigit : forall c,
  digitValue 16 c = None -> hexCharToInt (Some (codeOf c)) = die invalidHex.
Proof.
  intros c. unfold digitValue, hexCharToInt, codeOf.
  generalize (Z.of_nat (nat_of_ascii c)) as n. intros n. cbv zeta.
  split_ltb; cbn [andb] in *; split_ltb; intros E; try discriminate E;
    try reflexivity;
    repeat match goal with
           | H : context [?a <? ?b] |- _ => destruct (Z.ltb_spec a b) as [?|?]
           end; lia.
Qed.

Lemma hexToShellyColorValue_cases : forall s,
  (hexDigitsPrefix 2 s = true /\ exists v, hexToShellyColorValue s = Ok v) \/
  (hexDigitsPrefix 2 s = false /\ hexToShellyColorValue s = die invalidHex).
Proof.
  intros s. unfold hexToShellyColorValue, hexToInt.
  destruct s as [ | c1 s]; [right; split; reflexivity | ].
  cbn [hexDigitsPrefix]. unfold isHexDigit, at_.
  cbn [String.get option_map Nat.eqb]. fold (codeOf c1).
  destruct (digitValue 16 c1) as [d1 | ] eqn:D1.
  - destruct (hexCharToInt_digit _ _ D1) as [-> _]. cbn [bind andb].
    destruct s as [ | c2 s]; [right; split; reflexivity | ].
    cbn [String.get option_map Nat.eqb pred]. fold (codeOf c2).
    destruct (digitValue 16 c2) as [d2 | ] eqn:D2.
    + destruct (hexCharToInt_digit _ _ D2) as [-> _]. cbn [bind andb].
      left. split; [reflexivity | eexists; reflexivity].
    + rewrite (hexCharToInt_nondigit _ D2). right. split; reflexivity.
  - rewrite (hexCharToInt_nondigit _ D1). right. split; reflexivity.
Qed.

Lemma hexDigitsPrefix_pairs : forall r,
  hexDigitsPrefix 6 r
  = hexDigitsPrefix 2 (substring 0 2 r) && hexDigitsPrefix 2 (substring 2 2 r)
    && hexDigitsPrefix 2 (substring 4 2 r).
Proof.
  intros r.
  destruct r as [ | c1 [ | c2 [ | c3 [ | c4 [ | c5 [ | c6 r]]]]]];
    cbn [hexDigitsPrefix substring];
    repeat match goal with
           | |- context [isHexDigit ?c] => destruct (isHexDigit c)
           end; reflexivity.
Qed.

Lemma RGBStringToShellyValues_cases : forall marker r,
  (hexDigitsPrefix 6 r = true /\ exists v, RGBStringToShellyValues (String marker r) = Ok v) \/
  (hexDigitsPrefix 6 r = false /\ RGBStringToShellyValues (String marker r) = die invalidHex).
Proof.
  intros marker r. rewrite hexDigitsPrefix_pairs.
  unfold RGBStringToShellyValues, slice. cbn [Nat.sub].
  change (substring 1 2 (String marker r)) with (substring 0 2 r).
  change (substring 3 2 (String marker r)) with (substring 2 2 r).
  change (substring 5 2 (String marker r)) with (substring 4 2 r).
  destruct (hexToShellyColorValue_cases (substring 0 2 r)) as [[-> [v1 ->]] | [-> ->]];
    [ | right; split; reflexivity].
  destruct (hexToShellyColorValue_cases (substring 2 2 r)) as [[-> [v2 ->]] | [-> ->]];
    [ | right; split; reflexivity].
  destruct (hexToShellyColorValue_cases (substring 4 2 r)) as [[-> [v3 ->]] | [-> ->]];
    [ | right; split; reflexivity].
  left. split; [reflexivity | eexists; reflexivity].
Qed.

Lemma lookupColor_In : forall names name rgbString,
  lookupColor names name = Some rgbString -> In (name, rgbString) names.
Proof.
  induction names as [ | [n r] names IH]; intros name rgbString; cbn [lookupColor].
  - discriminate.
  - destruct (String.eqb_spec n name) as [-> | _].
    + intros E. inversion E. left. reflexivity.
    + intros E. right. apply IH. exact E.
Qed.

Lemma COLOR_NAMES_convert :
  forallb (fun p => negb (is_fatal (RGBStringToShellyValues (snd p)))) COLOR_NAMES = true.
Proof. vm_compute. reflexivity. Qed.

Lemma colorName_converts : forall name rgbString,
  lookupColor COLOR_NAMES name = Some rgbString ->
  exists v, RGBStringToShellyValues rgbString = Ok v.
Proof.
  intros name rgbString L. apply lookupColor_In in L.
  pose proof COLOR_NAMES_convert as A. rewrite forallb_forall in A.
  specialize (A _ L). cbn [snd] in A.
  destruct (RGBStringToShellyValues rgbString) as [v | f]; [exists v; reflexivity | discriminate].
Qed.

Lemma entryRGB_cases : forall e,
  (colorAccepted (color e) = true /\ exists v, entryRGB e = Ok v) \/
  (colorAccepted (color e) = false /\
   (entryRGB e = die invalidHex \/ entryRGB e = die (unknownColor (color e)))).
Proof.
  intros e. unfold entryRGB, colorAccepted.
  destruct (startsWithHash (color e)) eqn:H.
  - cbn [bind]. destruct (color e) as [ | marker r]; [discriminate H | ].
    cbn [afterMarker].
    destruct (RGBStringToShellyValues_cases marker r) as [[-> X] | [-> X]].
    + left. split; [reflexivity | exact X].
    + right. split; [reflexivity | left; exact X].
  - unfold colorNameToRGBString, knownColorName.
    destruct (lookupColor COLOR_NAMES (color e)) as [rgbString | ] eqn:L.
    + left. split; [reflexivity | ]. cbn [bind]. exact (colorName_converts _ _ L).
    + right. split; [reflexivity | right; reflexivity].
Qed.

(** What the precalculation makes of an entry. *)
Definition precalculated (e e' : priceColorEntry) : Prop :=
  exists v, entryRGB e = Ok v /\ e' = set_shellyRGB v e.

Lemma precalcLoop_cases : forall map,
  (Forall (fun e => colorAccepted (color e) = true) map /\
   exists map', precalcLoop map = Ok map' /\ Forall2 precalculated map map') \/
  (~ Forall (fun e => colorAccepted (color e) = true) map /\
   exists msg, precalcLoop map = die msg /\
               (msg = invalidHex \/ exists e, In e map /\ msg = unknownColor (color e))).
Proof.
  induction map as [ | e map IH]; cbn [precalcLoop].
  - left. split; [constructor | ]. exists []. split; [reflexivity | constructor].
  - destruct (entryRGB_cases e) as [[A [v E]] | [A D]].
    + rewrite E. cbn [bind].
      destruct IH as [[F [map' [-> R]]] | [N [msg [-> W]]]].
      * left. split; [constructor; assumption | ].
        exists (set_shellyRGB v e :: map'). split; [reflexivity | ].
        constructor; [exists v; split; [exact E | reflexivity] | exact R].
      * right. split.
        -- intros F. apply N. inversion F; subst; assumption.
        -- exists msg. split; [reflexivity | ].
           destruct W as [W | [e' [I W]]]; [left; exact W | right].
           exists e'. split; [right; exact I | exact W].
    + right. split.
      * intros F. inversion F; subst. congruence.
      * destruct D as [-> | ->]; eexists; (split; [reflexivity | ]).
        -- left. reflexivity.
        -- right. exists e. split; [left; reflexivity | reflexivity].
Qed.

Lemma precalculated_floors : forall map map',
  Forall2 precalculated map map' -> floors map' = floors map.
Proof.
  induction 1 as [ | e e' map map' [v [_ ->]] _ IH]; cbn [floors List.map].
  - reflexivity.
  - unfold floors in IH. rewrite IH. reflexivity.
Qed.

(** The first step of [checkConfig]: put the LED in switch mode. *)
Definition ensureSwitchMode (s : script) : script :=
  if negb (String.eqb (leds_mode (plugs_ui s)) "switch")
  then call_SetConfig {| leds_mode := "switch";
                         switch0_on := switch0_on (plugs_ui s);
                         switch0_off := switch0_off (plugs_ui s) |} s
  else s.

Lemma ensureSwitchMode_frame : forall s,
  priceColorMap (ensureSwitchMode s) = priceColorMap s /\
  isConnected (ensureSwitchMode s) = isConnected s /\
  pending (ensureSwitchMode s) = pending s /\
  console (ensureSwitchMode s) = console s /\
  leds_mode (plugs_ui (ensureSwitchMode s)) = "switch".
Proof.
  intros s. unfold ensureSwitchMode.
  destruct (String.eqb_spec (leds_mode (plugs_ui s)) "switch") as [E | _]; cbn.
  - repeat split. exact E.
  - repeat split.
Qed.

Definition firstFloorMessage : string := "PPI: First price map entry must be <= 0, crash".
Definition orderMessage : string := "PPI: Price map order failure, crash".

(** The result of [checkConfig] by the first check that fails. *)
Lemma checkConfig_outcome : forall s,
  (priceColorMap s = [] /\
   checkConfig s = Fatal (Threw "TypeError: cannot read property of undefined")) \/
  (exists first rest, priceColorMap s = first :: rest /\
     ((0 < fromPriceWithTax first)%Q /\ checkConfig s = die firstFloorMessage \/
      (fromPriceWithTax first <= 0)%Q /\
      (~ Sorted Qlt (floors (priceColorMap s)) /\ checkConfig s = die orderMessage \/
       Sorted Qlt (floors (priceColorMap s)) /\
       (~ Forall brightnessOk (priceColorMap s) /\
          (exists c, checkConfig s = die (onBrightnessMessage c) \/
                     checkConfig s = die (offBrightnessMessage c)) \/
        Forall brightnessOk (priceColorMap s) /\
        (~ Forall (fun e => colorAccepted (color e) = true) (priceColorMap s) /\
           (exists msg, checkConfig s = die msg /\
              (msg = invalidHex \/
               exists e, In e (priceColorMap s) /\ msg = unknownColor (color e))) \/
         Forall (fun e => colorAccepted (color e) = true) (priceColorMap s) /\
         exists map', precalcLoop (priceColorMap s) = Ok map' /\
                      Forall2 precalculated (priceColorMap s) map' /\
                      checkConfig s = Ok (set_priceColorMap map' (ensureSwitchMode s))))))).
Proof.
  intros s. unfold checkConfig. fold (ensureSwitchMode s).
  destruct (ensureSwitchMode_frame s) as [-> _].
  destruct (priceColorMap s) as [ | first rest] eqn:M; [left; split; reflexivity | ].
  right. exists first, rest. split; [reflexivity | ].
  destruct (Qgt_bool (fromPriceWithTax first) 0) eqn:G.
  - left. split; [apply Qgt_bool_iff; exact G | reflexivity].
  - right. split.
    { apply Qnot_lt_le. intros L. apply Qgt_bool_iff in L. congruence. }
    change (floors (first :: rest)) with (fromPriceWithTax first :: floors rest).
    destruct (orderLoop_cases rest (fromPriceWithTax first)) as [[-> S] | [-> N]];
      [ | left; split; [exact N | reflexivity]].
    right. split; [exact S | ]. cbn [bind].
    destruct (brightnessLoop_cases (first :: rest)) as [[-> B] | [[c D] N]].
    + right. split; [exact B | ]. cbn [bind].
      destruct (precalcLoop_cases (first :: rest)) as [[A [map' [-> R]]] | [N [msg [-> W]]]].
      * right. split; [exact A | ]. exists map'. repeat split. exact R.
      * left. split; [exact N | exists msg; split; [reflexivity | exact W]].
    + left. split; [exact N | ]. exists c.
      destruct D as [-> | ->]; [left | right]; reflexivity.
Qed.

Lemma checkConfig_accepts : forall s,
  acceptedTable (priceColorMap s) ->
  exists map', precalcLoop (priceColorMap s) = Ok map' /\
               Forall2 precalculated (priceColorMap s) map' /\
               checkConfig s = Ok (set_priceColorMap map' (ensureSwitchMode s)).
Proof.
  intros s [[first [rest [M F]]] [S [B A]]].
  destruct (checkConfig_outcome s) as [[E _] | [f [r [Mf C]]]]; [congruence | ].
  assert (f = first) by congruence. subst f.
  destruct C as [[L _] | [_ C]]; [exfalso; exact (Qlt_not_le _ _ L F) | ].
  destruct C as [[N _] | [_ C]]; [contradiction | ].
  destruct C as [[N _] | [_ C]]; [contradiction | ].
  destruct C as [[N _] | [_ C]]; [contradiction | exact C].
Qed.

Lemma checkConfig_Ok_inv : forall s s',
  checkConfig s = Ok s' ->
  acceptedTable (priceColorMap s) /\
  Forall2 precalculated (priceColorMap s) (priceColorMap s') /\
  s' = set_priceColorMap (priceColorMap s') (ensureSwitchMode s).
Proof.
  intros s s' H. unfold die in *.
  destruct (checkConfig_outcome s) as [[_ E] | [f [r [M C]]]]; [congruence | ].
  destruct C as [[_ E] | [F C]]; [unfold die in E; congruence | ].
  destruct C as [[_ E] | [S C]]; [unfold die in E; congruence | ].
  destruct C as [[_ [c [E | E]]] | [B C]]; try (unfold die in E; congruence).
  destruct C as [[_ [msg [E _]]] | [A [map' [_ [R E]]]]]; [unfold die in E; congruence | ].
  rewrite E in H. inversion H; subst s'. cbn [priceColorMap set_priceColorMap].
  split; [ | split; [exact R | reflexivity]].
  split; [exists f, r; split; assumption | ]. repeat split; assumption.
Qed.

Lemma COLOR_NAMES_unmarked :
  forallb (fun p => negb (startsWithHash (fst p))) COLOR_NAMES = true.
Proof. vm_compute. reflexivity. Qed.

Lemma colorAccepted_named_or_hex : forall c,
  knownColorName c = true \/ wellFormedHex c = true -> colorAccepted c = true.
Proof.
  intros c [K | W]; unfold colorAccepted.
  - assert (U : startsWithHash c = false).
    { unfold knownColorName in K.
      destruct (lookupColor COLOR_NAMES c) as [rgbString | ] eqn:L; [ | discriminate].
      apply lookupColor_In in L.
      pose proof COLOR_NAMES_unmarked as A. rewrite forallb_forall in A.
      specialize (A _ L). apply negb_true_iff in A. exact A. }
    rewrite U. exact K.
  - unfold wellFormedHex in W.
    apply andb_true_iff in W. destruct W as [W _].
    apply andb_true_iff in W. destruct W as [H P].
    rewrite H. exact P.
Qed.

Ltac same_head M :=
  match goal with
  | H : priceColorMap _ = _ :: _ |- _ =>
      lazymatch H with
      | M => fail
      | _ => rewrite M in H; injection H as <- <-
      end
  end.

(** C3 (as amended). [checkConfig] ends without a fatal result exactly on
    the accepted tables: non-empty, first floor at most 0, floors strictly
    increasing, every brightness within [0,100], and every colour a known
    name or the marker followed by six hex digits, whatever comes after
    them.  The checks run in this order and the first that fails ends the
    script: an empty table by the failed read of its first entry, then the
    first floor, the order, the brightness values and last the colours,
    each with its own message.  A known name or a well-formed hex colour is
    always accepted. *)
Theorem checkConfig_fails_fast : forall s,
  ((exists s', checkConfig s = Ok s') <-> acceptedTable (priceColorMap s)) /\
  (is_fatal (checkConfig s) = true <-> ~ acceptedTable (priceColorMap s)) /\
  (priceColorMap s = [] ->
   checkConfig s = Fatal (Threw "TypeError: cannot read property of undefined")) /\
  (forall first rest, priceColorMap s = first :: rest ->
   (0 < fromPriceWithTax first)%Q -> checkConfig s = die firstFloorMessage) /\
  (forall first rest, priceColorMap s = first :: rest ->
   (fromPriceWithTax first <= 0)%Q -> ~ Sorted Qlt (floors (priceColorMap s)) ->
   checkConfig s = die orderMessage) /\
  (forall first rest, priceColorMap s = first :: rest ->
   (fromPriceWithTax first <= 0)%Q -> Sorted Qlt (floors (priceColorMap s)) ->
   ~ Forall brightnessOk (priceColorMap s) ->
   exists c, checkConfig s = die (onBrightnessMessage c) \/
             checkConfig s = die (offBrightnessMessage c)) /\
  (forall first rest, priceColorMap s = first :: rest ->
   (fromPriceWithTax first <= 0)%Q -> Sorted Qlt (floors (priceColorMap s)) ->
   Forall brightnessOk (priceColorMap s) ->
   ~ Forall (fun e => colorAccepted (color e) = true) (priceColorMap s) ->
   exists msg, checkConfig s = die msg /\
     (msg = invalidHex \/
      exists e, In e (priceColorMap s) /\ msg = unknownColor (color e))) /\
  (forall c, knownColorName c = true \/ wellFormedHex c = true -> colorAccepted c = true).
Proof.
  intros s.
  assert (OkIff : (exists s', checkConfig s = Ok s') <-> acceptedTable (priceColorMap s)).
  { split.
    - intros [s' H]. exact (proj1 (checkConfig_Ok_inv s s' H)).
    - intros A. destruct (checkConfig_accepts s A) as [map' [_ [_ E]]].
      eexists. exact E. }
  split; [exact OkIff | ].
  split.
  { split.
    - intros F A. apply OkIff in A. destruct A as [s' E]. rewrite E in F. discriminate.
    - intros N. destruct (checkConfig s) as [s' | f] eqn:E; [ | reflexivity].
      exfalso. apply N. apply OkIff. exists s'. reflexivity. }
  destruct (checkConfig_outcome s) as [[M E] | [f [r [M C]]]].
  { split; [intros _; exact E | ].
    repeat split; intros; try congruence.
    apply colorAccepted_named_or_hex; assumption. }
  split; [intros; congruence | ].
  destruct C as [[L E] | [F C]].
  { repeat split; intros; try (apply colorAccepted_named_or_hex; assumption);
      same_head M; try exact E; exfalso; eapply Qlt_not_le; eassumption. }
  split.
  { intros; same_head M. exfalso; eapply Qlt_not_le; eassumption. }
  destruct C as [[N E] | [S C]].
  { repeat split; intros; try (apply colorAccepted_named_or_hex; assumption);
      try exact E; contradiction. }
  split; [intros; contradiction | ].
  destruct C as [[N E] | [B C]].
  { repeat split; intros; try (apply colorAccepted_named_or_hex; assumption);
      try exact E; contradiction. }
  split; [intros; contradiction | ].
  destruct C as [[N E] | [A _]].
  { split; intros; [exact E | apply colorAccepted_named_or_hex; assumption]. }
  split; intros; [contradiction | apply colorAccepted_named_or_hex; assumption].
Qed.

Lemma checkConfig_fails_fast_witness :
  (0 < fromPriceWithTax (entry 0.5 "red" 50 10))%Q /\
  checkConfig (boot [entry 0.5 "red" 50 10] switchModeUi) = die firstFloorMessage.
Proof.
  split; [reflexivity | ].
  apply (proj1 (proj2 (proj2 (proj2
           (checkConfig_fails_fast (boot [entry 0.5 "red" 50 10] switchModeUi)))))
           (entry 0.5 "red" 50 10) []); reflexivity.
Defined.

(** C3 (as stated) fails on a hex colour with characters after the sixth
    digit: the token is neither a known name nor a well-formed hex colour,
    and [checkConfig] accepts the table, reading the first six digits. *)
Lemma checkConfig_accepts_overlong_hex :
  knownColorName "#FF4500zz" = false /\
  wellFormedHex "#FF4500zz" = false /\
  is_fatal (checkConfig (boot [entry 0 "#FF4500zz" 50 10] switchModeUi)) = false /\
  checkConfig (boot [entry 0 "#FF4500zz" 50 10] switchModeUi)
  = Ok (boot [set_shellyRGB [Fin 100; Fin 27; Fin 0] (entry 0 "#FF4500zz" 50 10)]
          switchModeUi).
Proof. repeat split; vm_compute; reflexivity. Qed.

(** C10. [brightnessInRange] is the test [0 <= b] and [b <= 100] and no
    more: it holds of every number of the closed interval, whole or not,
    and [checkConfig] accepts a table with such a brightness; 50.5 is one. *)
Theorem brightnessInRange_ignores_integrality : forall b : Q,
  (brightnessInRange b = true <-> (0 <= b <= 100)%Q) /\
  ((0 <= b <= 100)%Q ->
   forall ui, exists s', checkConfig (boot [entry 0 "green" b b] ui) = Ok s') /\
  brightnessInRange 50.5 = true.
Proof.
  intros b. split; [apply brightnessInRange_iff | ].
  split; [ | reflexivity].
  intros R ui.
  destruct (checkConfig_accepts (boot [entry 0 "green" b b] ui)) as [map' [_ [_ E]]].
  - cbn [priceColorMap boot]. split; [ | split; [ | split]].
    + exists (entry 0 "green" b b), []. split; [reflexivity | ]. cbn. apply Qle_refl.
    + repeat constructor.
    + constructor; [split; exact R | constructor].
    + constructor; [vm_compute; reflexivity | constructor].
  - eexists. exact E.
Qed.

Lemma brightnessInRange_ignores_integrality_witness :
  (0 <= 50.5 <= 100)%Q /\
  exists s', checkConfig (boot [entry 0 "green" 50.5 50.5] switchModeUi) = Ok s'.
Proof.
  assert (R : (0 <= 50.5 <= 100)%Q) by (split; discriminate).
  split; [exact R | ].
  exact (proj1 (proj2 (brightnessInRange_ignores_integrality 50.5)) R switchModeUi).
Defined.

(** ** The descending scan of the response handler *)

(** The state after the handler has taken a 200 response as a sign of
    being online. *)
Definition markOnline (s : script) : script :=
  if negb (isConnected s) then connected s else s.

Definition notFound : string := "PPI: price not found in color map, crash.".

Lemma find_app : forall (A : Type) (p : A -> bool) (l1 l2 : list A),
  find p (l1 ++ l2) = match find p l1 with
                      | Some x => Some x
                      | None => find p l2
                      end.
Proof.
  intros A p l1 l2. induction l1 as [ | a l1 IH]; cbn [find app].
  - reflexivity.
  - destruct (p a); [reflexivity | exact IH].
Qed.

Lemma firstn_snoc : forall (A : Type) (l : list A) (j : nat) (a : A),
  nth_error l j = Some a -> firstn (S j) l = firstn j l ++ [a].
Proof.
  intros A l. induction l as [ | b l IH]; intros j a H.
  - destruct j; discriminate H.
  - destruct j as [ | j].
    + cbn in H. inversion H. reflexivity.
    + cbn [nth_error] in H. cbn [firstn app]. f_equal.
      change (firstn (S j) l = firstn j l ++ [a]). apply IH. exact H.
Qed.

Section Scan.

Variable v : option json.
Variable a : number.
Hypothesis coerced : ToNumberOrUndefined v = Ok a.

Definition reached (e : priceColorEntry) : bool := number_ge a (fromPriceWithTax e).

(** The loop visits the indices below [i] from the highest down and
    stops at the first entry whose floor the price has reached. *)
Lemma priceLoop_find : forall price map i,
  getProperty price "PriceWithTax" = Ok v ->
  (i <= List.length map)%nat ->
  priceLoop price map i = Ok (find reached (rev (firstn i map))).
Proof.
  intros price map i P. induction i as [ | j IH]; intros L.
  - reflexivity.
  - cbn [priceLoop]. rewrite P. cbn [bind].
    destruct (nth_error map j) as [e | ] eqn:N.
    + rewrite (firstn_snoc _ _ _ _ N), rev_unit. cbn [find].
      unfold js_ge. rewrite coerced. cbn [bind].
      fold (reached e). destruct (reached e); [reflexivity | ].
      apply IH. lia.
    + apply nth_error_None in N. lia.
Qed.

Lemma handleResponse_200 : forall s r price,
  code r = 200 -> body r = Some price ->
  getProperty price "PriceWithTax" = Ok v ->
  handleResponse (Some r) s
  = match find reached (rev (priceColorMap s)) with
    | Some e =>
        Ok (configureLight (shellyRGB e) (onBrightness e) (offBrightness e)
              (markOnline s), true)
    | None => die notFound
    end.
Proof.
  intros s r price C B P. unfold handleResponse. rewrite C, B. cbn [Z.eqb Pos.eqb].
  fold (markOnline s).
  assert (M : priceColorMap (markOnline s) = priceColorMap s).
  { unfold markOnline. destruct (isConnected s); reflexivity. }
  rewrite M, (priceLoop_find price _ _ P) by lia.
  rewrite firstn_all. cbn [bind].
  destruct (find reached (rev (priceColorMap s))); reflexivity.
Qed.

End Scan.

Definition floorReached (q : Q) (e : priceColorEntry) : bool :=
  Qle_bool (fromPriceWithTax e) q.

Lemma reached_number : forall q e, reached (Fin q) e = floorReached q e.
Proof. reflexivity. Qed.

Lemma sorted_floors_above : forall first rest,
  Sorted Qlt (floors (first :: rest)) ->
  Sorted Qlt (floors rest) /\
  forall e, In e rest -> (fromPriceWithTax first < fromPriceWithTax e)%Q.
Proof.
  intros first rest S.
  apply Sorted_StronglySorted in S; [ | intros x y z; apply Qlt_trans].
  cbn [floors List.map] in S. inversion S as [ | ? ? S' F]; subst.
  split; [apply StronglySorted_Sorted; exact S' | ].
  intros e I. rewrite Forall_forall in F. apply F.
  unfold floors. apply in_map. exact I.
Qed.

(** On increasing floors the first entry met from the top is the one with
    the greatest floor among those the price has reached. *)
Lemma find_rev_greatest : forall q map e,
  Sorted Qlt (floors map) ->
  find (floorReached q) (rev map) = Some e ->
  In e map /\ (fromPriceWithTax e <= q)%Q /\
  forall e', In e' map -> (fromPriceWithTax e' <= q)%Q ->
             (fromPriceWithTax e' <= fromPriceWithTax e)%Q.
Proof.
  intros q map. induction map as [ | a map IH]; intros e S F.
  - discriminate F.
  - destruct (sorted_floors_above a map S) as [S' Above].
    cbn [rev] in F. rewrite find_app in F.
    destruct (find (floorReached q) (rev map)) as [e0 | ] eqn:F0.
    + inversion F; subst e0. destruct (IH e S' eq_refl) as [I [R G]].
      split; [right; exact I | ]. split; [exact R | ].
      intros e' [<- | I'] R'.
      * apply Qlt_le_weak. apply Above. exact I.
      * apply G; assumption.
    + cbn [find] in F. destruct (floorReached q a) eqn:Ra; [ | discriminate F].
      inversion F; subst e. split; [left; reflexivity | ].
      split; [apply Qle_bool_iff; exact Ra | ].
      intros e' [<- | I'] R'; [apply Qle_refl | ].
      exfalso. pose proof (find_none _ _ F0 e') as Z.
      rewrite <- in_rev in Z. specialize (Z I'). unfold floorReached in Z.
      apply Qle_bool_iff in R'. congruence.
Qed.

Lemma find_rev_some : forall q map e,
  In e map -> (fromPriceWithTax e <= q)%Q ->
  exists e0, find (floorReached q) (rev map) = Some e0.
Proof.
  intros q map e I R.
  destruct (find (floorReached q) (rev map)) as [e0 | ] eqn:F; [exists e0; reflexivity | ].
  pose proof (find_none _ _ F e) as Z. rewrite <- in_rev in Z. specialize (Z I).
  unfold floorReached in Z. apply Qle_bool_iff in R. congruence.
Qed.

(** Entries of a table with increasing floors are told apart by their floor. *)
Lemma sorted_floor_unique : forall map a b,
  Sorted Qlt (floors map) -> In a map -> In b map ->
  (fromPriceWithTax a == fromPriceWithTax b)%Q -> a = b.
Proof.
  induction map as [ | x map IH]; intros a b S Ia Ib E; [destruct Ia | ].
  destruct (sorted_floors_above x map S) as [S' Above].
  destruct Ia as [<- | Ia], Ib as [<- | Ib].
  - reflexivity.
  - exfalso. specialize (Above _ Ib). rewrite E in Above. exact (Qlt_irrefl _ Above).
  - exfalso. specialize (Above _ Ia). rewrite E in Above. exact (Qlt_irrefl _ Above).
  - apply IH; assumption.
Qed.

Lemma find_rev_none_iff : forall q first rest,
  Sorted Qlt (floors (first :: rest)) ->
  (find (floorReached q) (rev (first :: rest)) = None <-> (q < fromPriceWithTax first)%Q).
Proof.
  intros q first rest S. destruct (sorted_floors_above first rest S) as [_ Above].
  split.
  - intros F. pose proof (find_none _ _ F first) as Z. rewrite <- in_rev in Z.
    specialize (Z (or_introl eq_refl)). unfold floorReached in Z.
    apply Qnot_le_lt. intros L. apply Qle_bool_iff in L. congruence.
  - intros L.
    destruct (find (floorReached q) (rev (first :: rest))) as [e | ] eqn:F; [ | reflexivity].
    exfalso. apply find_some in F. destruct F as [I R]. rewrite <- in_rev in I.
    apply Qle_bool_iff in R.
    destruct I as [<- | I].
    + exact (Qlt_not_le _ _ L R).
    + specialize (Above _ I).
      exact (Qlt_not_le _ _ (Qlt_trans _ _ _ L Above) R).
Qed.

(** A table that came out of [checkConfig]. *)
Definition validatedMap (map : list priceColorEntry) : Prop :=
  exists s0 s1, checkConfig s0 = Ok s1 /\ priceColorMap s1 = map.

Lemma validatedMap_sorted : forall map,
  validatedMap map ->
  (exists first rest, map = first :: rest /\ (fromPriceWithTax first <= 0)%Q) /\
  Sorted Qlt (floors map).
Proof.
  intros map [s0 [s1 [C <-]]].
  destruct (checkConfig_Ok_inv s0 s1 C) as [[[first [rest [M F]]] [S _]] [R _]].
  split.
  - rewrite M in R. inversion R as [ | ? e' ? rest' [v [_ ->]] _]; subst.
    exists (set_shellyRGB v first), rest'. split; [reflexivity | exact F].
  - rewrite (precalculated_floors _ _ R). exact S.
Qed.

(** A 200 response whose body is the object with the one member
    [PriceWithTax], a number. *)
Definition priceResponse (q : Q) : response :=
  {| code := 200; body := Some (JObject [("PriceWithTax", JNumber q)]) |}.

(** The colour and brightness for the switch on and off that a handler
    left in the device, if it ended without a fatal result. *)
Definition lightAfter (o : outcome (script * bool)) : option (colorConfig * colorConfig) :=
  match o with
  | Ok (s, _) => Some (switch0_on (plugs_ui s), switch0_off (plugs_ui s))
  | Fatal _ => None
  end.

Definition light (e : priceColorEntry) (v : list number) : colorConfig * colorConfig :=
  ({| rgb := Some v; brightness := onBrightness e |},
   {| rgb := Some v; brightness := offBrightness e |}).

Definition entryA : priceColorEntry := entry (-1.0) "purple" 80 10.
Definition entryB : priceColorEntry := entry 0.00 "green" 80 10.
Definition entryC : priceColorEntry := entry 0.09 "turquoise" 50 7.

(** The device after [checkConfig] on the table A, B, C receives [resp]. *)
Definition afterValidation (resp : response) : outcome (script * bool) :=
  s <- checkConfig (boot [entryA; entryB; entryC] switchModeUi) ;;
  handleResponse (Some resp) s.

(** C1. On a validated table and a response with status 200 whose
    [PriceWithTax] is the number [q], the handler scans the entries from the
    highest floor down and configures the light with the first one whose
    floor is at most [q]; that entry has the greatest floor among those at
    most [q], and an entry whose floor equals [q] is the one selected.  On
    the table with floors -1.0, 0.0 and 0.09 the prices 0.05, -0.5 and 0.09
    select the second, the first and the third entry. *)
Theorem handleResponse_selects_greatest_floor :
  (forall s r price q,
      validatedMap (priceColorMap s) ->
      code r = 200 -> body r = Some price ->
      getProperty price "PriceWithTax" = Ok (Some (JNumber q)) ->
      handleResponse (Some r) s
      = match find (floorReached q) (rev (priceColorMap s)) with
        | Some e =>
            Ok (configureLight (shellyRGB e) (onBrightness e) (offBrightness e)
                  (markOnline s), true)
        | None => die notFound
        end /\
      (forall e, find (floorReached q) (rev (priceColorMap s)) = Some e ->
         In e (priceColorMap s) /\ (fromPriceWithTax e <= q)%Q /\
         forall e', In e' (priceColorMap s) -> (fromPriceWithTax e' <= q)%Q ->
                    (fromPriceWithTax e' <= fromPriceWithTax e)%Q) /\
      (forall e, In e (priceColorMap s) -> (fromPriceWithTax e <= q)%Q ->
         exists e0, find (floorReached q) (rev (priceColorMap s)) = Some e0) /\
      (forall e, In e (priceColorMap s) -> (fromPriceWithTax e == q)%Q ->
         find (floorReached q) (rev (priceColorMap s)) = Some e)) /\
  lightAfter (afterValidation (priceResponse 0.05)) = Some (light entryB [Fin 0; Fin 50; Fin 0]) /\
  lightAfter (afterValidation (priceResponse (-0.5))) = Some (light entryA [Fin 50; Fin 0; Fin 50]) /\
  lightAfter (afterValidation (priceResponse 0.09)) = Some (light entryC [Fin 25; Fin 88; Fin 82]).
Proof.
  split; [ | repeat split; vm_compute; reflexivity].
  intros s r price q V C B P.
  destruct (validatedMap_sorted _ V) as [_ S].
  split; [ | split; [ | split]].
  - rewrite (handleResponse_200 (Some (JNumber q)) (Fin q) eq_refl s r price C B P).
    reflexivity.
  - intros e F. exact (find_rev_greatest q _ e S F).
  - intros e I R. exact (find_rev_some q _ e I R).
  - intros e I E.
    assert (R : (fromPriceWithTax e <= q)%Q) by (rewrite E; apply Qle_refl).
    destruct (find_rev_some q _ e I R) as [e0 F]. rewrite F. f_equal.
    destruct (find_rev_greatest q _ e0 S F) as [I0 [R0 G]].
    apply (sorted_floor_unique _ e0 e S I0 I).
    apply Qle_antisym; [rewrite E; exact R0 | exact (G e I R)].
Qed.

(** The default table as [checkConfig] leaves it on a device in switch mode. *)
Definition validatedDefault : script :=
  Eval vm_compute in
    match checkConfig (boot defaultPriceColorMap switchModeUi) with
    | Ok s => s
    | Fatal _ => boot [] switchModeUi
    end.

Lemma validatedDefault_validated : validatedMap (priceColorMap validatedDefault).
Proof.
  exists (boot defaultPriceColorMap switchModeUi), validatedDefault.
  split; vm_compute; reflexivity.
Defined.

Lemma handleResponse_selects_greatest_floor_witness :
  handleResponse (Some (priceResponse 0.15)) validatedDefault
  = match find (floorReached 0.15) (rev (priceColorMap validatedDefault)) with
    | Some e =>
        Ok (configureLight (shellyRGB e) (onBrightness e) (offBrightness e)
              (markOnline validatedDefault), true)
    | None => die notFound
    end.
Proof.
  apply (proj1 (proj1 handleResponse_selects_greatest_floor
                  validatedDefault (priceResponse 0.15)
                  (JObject [("PriceWithTax", JNumber 0.15)]) 0.15%Q
                  validatedDefault_validated eq_refl eq_refl eq_refl)).
Defined.

(** C2 (as stated) fails: the default table passes [checkConfig], its
    first floor is -1.0, and the finite price -2 reaches no floor, so the
    handler ends in [die]. *)
Lemma price_below_first_floor_dies :
  checkConfig (boot defaultPriceColorMap switchModeUi) = Ok validatedDefault /\
  handleResponse (Some (priceResponse (-2))) validatedDefault = die notFound.
Proof. split; vm_compute; reflexivity. Qed.

(** C2 (as amended). On a validated table and a response with status 200
    whose [PriceWithTax] is the number [q], the scan ends in [die] exactly
    when [q] is below the floor of the first entry; from that floor on, and
    so for every price from 0 on, it finds an entry and the handler returns
    [true]. *)
Theorem scan_matches_from_first_floor : forall s r price q first rest,
  validatedMap (priceColorMap s) ->
  priceColorMap s = first :: rest ->
  code r = 200 -> body r = Some price ->
  getProperty price "PriceWithTax" = Ok (Some (JNumber q)) ->
  (handleResponse (Some r) s = die notFound <-> (q < fromPriceWithTax first)%Q) /\
  ((fromPriceWithTax first <= q)%Q -> exists s', handleResponse (Some r) s = Ok (s', true)) /\
  ((0 <= q)%Q -> exists s', handleResponse (Some r) s = Ok (s', true)).
Proof.
  intros s r price q first rest V M C B P.
  destruct (validatedMap_sorted _ V) as [[f [r' [M' F]]] S].
  assert (f = first) by congruence. subst f.
  rewrite (handleResponse_200 (Some (JNumber q)) (Fin q) eq_refl s r price C B P).
  change (reached (Fin q)) with (floorReached q).
  rewrite M in *. pose proof (find_rev_none_iff q first rest S) as N.
  assert (Found : (fromPriceWithTax first <= q)%Q ->
                  exists e, find (floorReached q) (rev (first :: rest)) = Some e).
  { intros L. apply (find_rev_some q _ first); [left; reflexivity | exact L]. }
  split; [ | split].
  - split.
    + intros D. apply N.
      destruct (find (floorReached q) (rev (first :: rest))); [discriminate D | reflexivity].
    + intros L. apply N in L. rewrite L. reflexivity.
  - intros L. destruct (Found L) as [e ->]. eexists. reflexivity.
  - intros L. destruct (Found (Qle_trans _ _ _ F L)) as [e ->]. eexists. reflexivity.
Qed.

Lemma scan_matches_from_first_floor_witness :
  (0 <= 0.05)%Q /\
  exists s', handleResponse (Some (priceResponse 0.05)) validatedDefault = Ok (s', true).
Proof.
  split; [discriminate | ].
  apply (proj2 (proj2 (scan_matches_from_first_floor
           validatedDefault (priceResponse 0.05)
           (JObject [("PriceWithTax", JNumber 0.05)]) 0.05%Q
           (hd entryA (priceColorMap validatedDefault))
           (tl (priceColorMap validatedDefault))
           validatedDefault_validated eq_refl eq_refl eq_refl eq_refl))).
  discriminate.
Defined.

(** ** Bodies without a numeric price *)

Lemma find_never : forall (A : Type) (p : A -> bool) (l : list A),
  (forall a, p a = false) -> find p l = None.
Proof.
  intros A p l H. induction l as [ | a l IH]; cbn [find]; [reflexivity | ].
  rewrite H. exact IH.
Qed.



Section JsonInduction.

Variable P : json -> Prop.
Hypothesis atNull : P JNull.
Hypothesis atBool : forall b, P (JBool b).
Hypothesis atNumber : forall q, P (JNumber q).
Hypothesis atInfinity : forall negative, P (JInfinity negative).
Hypothesis atString : forall t, P (JString t).
Hypothesis atArray : forall items, Forall P items -> P (JArray items).
Hypothesis atObject : forall members, P (JObject members).


End JsonInduction.




(** ** The quarter-hour gate *)

Definition twoDigits (n : nat) : string :=
  String (ascii_of_nat (48 + n / 10)) (String (ascii_of_nat (48 + n mod 10)) EmptyString).

(** The device's clock text for [h] hours and [m] minutes: HH:MM. *)
Definition clock (h m : nat) : string :=
  String.append (twoDigits h) (String ":" (twoDigits m)).

Definition onQuarter (m : nat) : bool := (m mod 15 =? 0)%nat.

Lemma isQuarterOfAnHour_minutes : forall m,
  (m < 60)%nat ->
  (tens <- hexCharToInt (at_ (twoDigits m) 0) ;;
   units <- hexCharToInt (at_ (twoDigits m) 1) ;;
   Ok ((10 * tens + units) mod 15 =? 0)) = Ok (onQuarter m).
Proof.
  intros m H.
  do 60 (destruct m as [ | m]; [vm_compute; reflexivity | ]).
  lia.
Qed.

Lemma isQuarterOfAnHour_clock : forall h m,
  (m < 60)%nat -> isQuarterOfAnHour (clock h m) = Ok (onQuarter m).
Proof.
  intros h m H. unfold isQuarterOfAnHour.
  change (slice (clock h m) 3 5) with (twoDigits m).
  apply isQuarterOfAnHour_minutes. exact H.
Qed.

Definition fetch (s : script) : script := call_HTTP_GET PRICE_URL 10 s.

Lemma tick_offline : forall time s,
  isConnected s = false -> tick time s = Ok (fetch s).
Proof. intros time s H. unfold tick. rewrite H. reflexivity. Qed.

Lemma tick_online : forall time s,
  isConnected s = true ->
  tick time s = due <- isQuarterOfAnHour time ;; if due then Ok (fetch s) else Ok s.
Proof. intros time s H. unfold tick. rewrite H. reflexivity. Qed.

Lemma tick_clock : forall h m s,
  (m < 60)%nat ->
  tick (clock h m) s = Ok (if negb (isConnected s) || onQuarter m then fetch s else s).
Proof.
  intros h m s H. destruct (isConnected s) eqn:C.
  - rewrite (tick_online _ _ C), (isQuarterOfAnHour_clock h m H). cbn [bind negb orb].
    destruct (onQuarter m); reflexivity.
  - rewrite (tick_offline _ _ C). reflexivity.
Qed.

(** C6. With [DEBUG] false, a tick at the clock text of minute [m] issues
    a fetch exactly when the script is not connected or [m] is a multiple
    of 15; connected and off the quarter hour it leaves the state as it
    is; not connected it issues the fetch whatever the clock text. *)
Theorem tick_quarter_hour_gate : forall h m s,
  (m < 60)%nat ->
  DEBUG = false /\
  tick (clock h m) s = Ok (if negb (isConnected s) || onQuarter m then fetch s else s) /\
  ((exists s', tick (clock h m) s = Ok s' /\ pending s' = S (pending s)) <->
   isConnected s = false \/ (m mod 15 = 0)%nat) /\
  (isConnected s = true -> (m mod 15 <> 0)%nat -> tick (clock h m) s = Ok s) /\
  (isConnected s = true -> (m mod 15 = 0)%nat -> tick (clock h m) s = Ok (fetch s)) /\
  (forall time, isConnected s = false -> tick time s = Ok (fetch s)).
Proof.
  intros h m s H. split; [reflexivity | ].
  pose proof (tick_clock h m s H) as T.
  split; [exact T | ].
  unfold onQuarter in T.
  split; [ | split; [ | split]].
  - rewrite T. split.
    + intros [s' [E P]].
      destruct (isConnected s); [right | left; reflexivity].
      destruct (Nat.eqb_spec (m mod 15) 0) as [Q | Q]; [exact Q | ].
      cbn in E. inversion E; subst s'. lia.
    + intros [C | Q].
      * rewrite C. eexists. split; reflexivity.
      * rewrite Q. rewrite orb_true_r. eexists. split; reflexivity.
  - intros C Q. rewrite T, C. apply Nat.eqb_neq in Q. rewrite Q. reflexivity.
  - intros C Q. rewrite T, C, Q. reflexivity.
  - intros time C. apply tick_offline. exact C.
Qed.

Lemma tick_quarter_hour_gate_witness :
  (7 < 60)%nat /\
  tick (clock 12 7) (set_isConnected true validatedDefault)
  = Ok (set_isConnected true validatedDefault) /\
  tick (clock 12 30) (set_isConnected true validatedDefault)
  = Ok (fetch (set_isConnected true validatedDefault)).
Proof.
  split; [lia | ]. split.
  - apply (proj1 (proj2 (proj2 (proj2
      (tick_quarter_hour_gate 12 7 (set_isConnected true validatedDefault)
         ltac:(lia)))))); [reflexivity | discriminate].
  - apply (proj1 (proj2 (proj2 (proj2 (proj2
      (tick_quarter_hour_gate 12 30 (set_isConnected true validatedDefault)
         ltac:(lia))))))); reflexivity.
Defined.

(** ** Connectivity *)

Definition white : list number := [Fin 100; Fin 100; Fin 100].

(** What [disConnected] does: the log line, the white light at 50 and 10,
    the flag. *)
Definition goWhite (s : script) : script :=
  set_isConnected false (configureLight (Some white) 50 10 (console_log LogDisconnected s)).

Lemma white_name : colorNameToRGBString "white" = Ok "#FFFFFF".
Proof. vm_compute. reflexivity. Qed.

Lemma white_values : RGBStringToShellyValues "#FFFFFF" = Ok white.
Proof. vm_compute. reflexivity. Qed.

Lemma disConnected_eq : forall s, disConnected s = Ok (goWhite s).
Proof.
  intros s. unfold disConnected. rewrite white_name. cbn [bind].
  rewrite white_values. reflexivity.
Qed.

Definition isLogDisconnected (l : logLine) : bool :=
  match l with
  | LogDisconnected => true
  | _ => false
  end.

(** How many times [disConnected] has run, read off the console. *)
Definition disconnections (s : script) : nat :=
  List.length (filter isLogDisconnected (console s)).

Lemma configureLight_disconnections : forall v onB offB s,
  disconnections (configureLight v onB offB s) = disconnections s.
Proof.
  intros v onB offB s. unfold configureLight.
  destruct (String.eqb (leds_mode (plugs_ui s)) "switch"); reflexivity.
Qed.

Lemma configureLight_frame : forall v onB offB s,
  isConnected (configureLight v onB offB s) = isConnected s /\
  pending (configureLight v onB offB s) = pending s /\
  priceColorMap (configureLight v onB offB s) = priceColorMap s.
Proof.
  intros v onB offB s. unfold configureLight.
  destruct (String.eqb (leds_mode (plugs_ui s)) "switch"); repeat split.
Qed.

Lemma goWhite_disconnections : forall s, disconnections (goWhite s) = S (disconnections s).
Proof.
  intros s. unfold goWhite.
  change (disconnections (set_isConnected false ?x)) with (disconnections x).
  rewrite configureLight_disconnections. reflexivity.
Qed.

Lemma goWhite_frame : forall s,
  isConnected (goWhite s) = false /\ pending (goWhite s) = pending s /\
  priceColorMap (goWhite s) = priceColorMap s.
Proof.
  intros s. unfold goWhite.
  destruct (configureLight_frame (Some white) 50 10 (console_log LogDisconnected s))
    as [_ [P M]].
  repeat split; assumption.
Qed.

(** The offline appearance in the device, when its LED is in switch mode. *)
Lemma goWhite_light : forall s,
  leds_mode (plugs_ui s) = "switch" ->
  plugs_ui (goWhite s)
  = {| leds_mode := "switch";
       switch0_on := {| rgb := Some white; brightness := 50 |};
       switch0_off := {| rgb := Some white; brightness := 10 |} |}.
Proof.
  intros s H. unfold goWhite, configureLight. cbn [plugs_ui console_log].
  rewrite H. reflexivity.
Qed.

Definition responseFailed (resp : option response) : bool :=
  match resp with
  | Some r => negb (code r =? 200)
  | None => true
  end.

Definition named (c e : string) (i : eventInfo) : bool :=
  match component i, event i with
  | FString c', FString e' => String.eqb c' c && String.eqb e' e
  | _, _ => false
  end.

(** The event the script takes for a connection: the cloud's when the
    cloud is enabled, the network's otherwise. *)
Definition connectEvent (cloud_enable : bool) : shellyEvent :=
  if cloud_enable
  then {| info := InfoObject {| component := FString "cloud"; event := FString "connected" |} |}
  else {| info := InfoObject {| component := FString "wifi"; event := FString "sta_ip_acquired" |} |}.

Definition isDisconnectEvent (ev : shellyEvent) : bool :=
  match info ev with
  | InfoObject i => named "wifi" "sta_disconnected" i || named "cloud" "disconnected" i
  | _ => false
  end.

Lemma handleResponse_failed : forall resp s,
  responseFailed resp = true ->
  handleResponse resp s
  = Ok (console_log LogInvalidResponse (if isConnected s then s else goWhite s), false).
Proof.
  intros resp s F. unfold handleResponse.
  assert (E : (s1 <- (if negb (isConnected s) then disConnected s else Ok s) ;;
               Ok (console_log LogInvalidResponse s1, false))
              = Ok (console_log LogInvalidResponse (if isConnected s then s else goWhite s),
                    false)).
  { destruct (isConnected s); cbn [negb]; [reflexivity | ].
    rewrite disConnected_eq. reflexivity. }
  destruct resp as [r | ]; [ | exact E].
  cbn [responseFailed] in F. apply negb_true_iff in F. rewrite F. exact E.
Qed.

Lemma handleResponse_success_disconnections : forall resp s s' b,
  responseFailed resp = false ->
  handleResponse resp s = Ok (s', b) ->
  disconnections s' = disconnections s /\ isConnected s' = true.
Proof.
  intros resp s s' b F H. destruct resp as [r | ]; [ | discriminate F].
  cbn [responseFailed] in F. apply negb_false_iff in F.
  unfold handleResponse in H. rewrite F in H. fold (markOnline s) in H.
  destruct (body r) as [price | ]; [ | discriminate H].
  destruct (priceLoop price (priceColorMap (markOnline s))
              (List.length (priceColorMap (markOnline s)))) as [[e | ] | f];
    cbn [bind] in H; try discriminate H.
  inversion H; subst s' b. rewrite configureLight_disconnections.
  destruct (configureLight_frame (shellyRGB e) (onBrightness e) (offBrightness e)
              (markOnline s)) as [-> _].
  unfold markOnline. destruct (isConnected s) eqn:C; cbn [negb]; split;
    try reflexivity; exact C.
Qed.

Lemma tick_disconnections : forall time s s',
  tick time s = Ok s' -> disconnections s' = disconnections s.
Proof.
  intros time s s' H. unfold tick in H.
  destruct (if negb (isConnected s) then Ok true
            else if DEBUG then Ok true else isQuarterOfAnHour time) as [[ | ] | f];
    cbn [bind] in H; inversion H; reflexivity.
Qed.

Lemma handleEvents_connect : forall cloud_enable time s,
  handleEvents cloud_enable time (connectEvent cloud_enable) s = tick time s.
Proof.
  intros cloud_enable time s. unfold handleEvents, connectEvent.
  destruct cloud_enable; cbn; destruct (tick time s); reflexivity.
Qed.

Lemma handleEvents_disconnections : forall cloud_enable time ev s s',
  handleEvents cloud_enable time ev s = Ok s' ->
  disconnections s' = (disconnections s + (if isDisconnectEvent ev then 1 else 0))%nat.
Proof.
  intros cloud_enable time ev s s' H. unfold handleEvents in H. unfold isDisconnectEvent.
  destruct (info ev) as [[[c | ] [e | ]] | | ]; unfold named; cbn [component event];
    try (inversion H; subst; cbn; lia).
  match type of H with
  | (s1 <- ?first ;; _) = _ => destruct first as [s1 | f] eqn:T; cbn [bind] in H
  end; [ | discriminate H].
  assert (D1 : disconnections s1 = disconnections s).
  { destruct cloud_enable;
      match type of T with
      | (if ?c then _ else _) = _ => destruct c
      end;
      try (inversion T; subst; reflexivity);
      exact (tick_disconnections _ _ _ T). }
  match type of H with
  | (if ?c then _ else _) = _ => destruct c
  end.
  - rewrite disConnected_eq in H. inversion H; subst s'.
    rewrite goWhite_disconnections. lia.
  - inversion H; subst s'. lia.
Qed.

(** The inputs after which [disConnected] has run once more. *)
Definition drivesOffline (i : input) (s : script) : bool :=
  match i with
  | Tick _ => false
  | Event _ _ ev => isDisconnectEvent ev
  | Response resp => responseFailed resp && negb (isConnected s)
  end.

Lemma step_disconnections : forall s i s',
  step s i s' ->
  disconnections s' = (disconnections s + (if drivesOffline i s then 1 else 0))%nat.
Proof.
  intros s i s' St. destruct St as [time s s' T | cloud_enable time ev s s' E | resp s n s' b P H];
    cbn [drivesOffline].
  - rewrite (tick_disconnections _ _ _ T). lia.
  - exact (handleEvents_disconnections _ _ _ _ _ E).
  - destruct (responseFailed resp) eqn:F; cbn [andb].
    + rewrite (handleResponse_failed _ _ F) in H. inversion H; subst s' b.
      change (isConnected (set_pending n s)) with (isConnected s).
      destruct (isConnected s); cbn [negb].
      * cbn. change (disconnections s = (disconnections s + 0)%nat). lia.
      * change (disconnections (console_log LogInvalidResponse ?x))
          with (disconnections x).
        rewrite goWhite_disconnections.
        change (disconnections (set_pending n s)) with (disconnections s). lia.
    + destruct (handleResponse_success_disconnections _ _ _ _ F H) as [D _].
      rewrite D. change (disconnections (set_pending n s)) with (disconnections s). lia.
Qed.

(** C7. A fetch that fails, or answers with a status other than 200,
    while the script is connected leaves it connected and writes nothing
    to the device: the handler only logs and returns [false].  Among the
    inputs of a running script, [disConnected] runs exactly on such a
    response while not connected and on a disconnect event; it is what
    puts the white light at 50 and 10 in a device in switch mode. *)
Theorem failed_fetch_while_online_is_ignored :
  (forall resp s,
      isConnected s = true -> responseFailed resp = true ->
      exists s', handleResponse resp s = Ok (s', false) /\
                 isConnected s' = true /\
                 plugs_ui s' = plugs_ui s /\
                 calls s' = calls s /\
                 pending s' = pending s /\
                 console s' = LogInvalidResponse :: console s) /\
  (forall resp s,
      isConnected s = false -> responseFailed resp = true ->
      handleResponse resp s = Ok (console_log LogInvalidResponse (goWhite s), false)) /\
  (forall s i s',
      step s i s' ->
      disconnections s' = (disconnections s + (if drivesOffline i s then 1 else 0))%nat) /\
  (forall s,
      leds_mode (plugs_ui s) = "switch" ->
      isConnected (goWhite s) = false /\
      plugs_ui (goWhite s)
      = {| leds_mode := "switch";
           switch0_on := {| rgb := Some white; brightness := 50 |};
           switch0_off := {| rgb := Some white; brightness := 10 |} |}).
Proof.
  split; [ | split; [ | split]].
  - intros resp s C F. exists (console_log LogInvalidResponse s).
    rewrite (handleResponse_failed _ _ F), C. repeat split. exact C.
  - intros resp s C F. rewrite (handleResponse_failed _ _ F), C. reflexivity.
  - exact step_disconnections.
  - intros s M. split; [reflexivity | exact (goWhite_light s M)].
Qed.

Lemma failed_fetch_while_online_is_ignored_witness :
  isConnected (set_isConnected true validatedDefault) = true /\
  responseFailed (Some {| code := 503; body := None |}) = true /\
  exists s',
    handleResponse (Some {| code := 503; body := None |})
      (set_isConnected true validatedDefault) = Ok (s', false) /\
    isConnected s' = true /\
    plugs_ui s' = plugs_ui (set_isConnected true validatedDefault) /\
    calls s' = calls (set_isConnected true validatedDefault) /\
    pending s' = pending (set_isConnected true validatedDefault) /\
    console s' = LogInvalidResponse :: console (set_isConnected true validatedDefault).
Proof.
  split; [reflexivity | ]. split; [reflexivity | ].
  apply (proj1 failed_fetch_while_online_is_ignored
           (Some {| code := 503; body := None |})
           (set_isConnected true validatedDefault)); reflexivity.
Defined.

(** ** Fetches *)

(** The script after its top level has run at 12:07 on a device in switch
    mode, and after the first response, with the price 0.05, has come. *)
Definition startState : script :=
  Eval vm_compute in
    match main (clock 12 7) (boot defaultPriceColorMap switchModeUi) with
    | Ok s => s
    | Fatal _ => boot [] switchModeUi
    end.

Definition onlineState : script :=
  Eval vm_compute in
    match handleResponse (Some (priceResponse 0.05)) (set_pending 0 startState) with
    | Ok (s, _) => s
    | Fatal _ => boot [] switchModeUi
    end.

Lemma startState_reachable : reachable defaultPriceColorMap switchModeUi startState.
Proof. apply (reach_main _ _ (clock 12 7)). vm_compute. reflexivity. Qed.

Lemma onlineState_reachable : reachable defaultPriceColorMap switchModeUi onlineState.
Proof.
  apply (reach_step _ _ startState (Response (Some (priceResponse 0.05)))).
  - exact startState_reachable.
  - apply (step_response _ _ 0%nat _ true); vm_compute; reflexivity.
Qed.

(** C8 (as stated) fails: in the reachable state after the first price
    has come the script is connected, and a connect event at 12:07, the
    cloud's or the network's, leaves the state as it is: no fetch. *)
Lemma connect_event_while_online_is_gated :
  reachable defaultPriceColorMap switchModeUi onlineState /\
  isConnected onlineState = true /\
  handleEvents true (clock 12 7) (connectEvent true) onlineState = Ok onlineState /\
  handleEvents false (clock 12 7) (connectEvent false) onlineState = Ok onlineState.
Proof.
  split; [exact onlineState_reachable | ].
  repeat split; vm_compute; reflexivity.
Qed.

(** C8 (as amended). A connect event runs [tick], gate included: it
    issues a fetch at once when the script is not connected, whatever the
    minute, and when connected only on the quarter hour. *)
Theorem connect_event_runs_tick : forall cloud_enable time s,
  handleEvents cloud_enable time (connectEvent cloud_enable) s = tick time s /\
  (isConnected s = false ->
   handleEvents cloud_enable time (connectEvent cloud_enable) s = Ok (fetch s)) /\
  (forall h m, (m < 60)%nat ->
   handleEvents cloud_enable (clock h m) (connectEvent cloud_enable) s
   = Ok (if negb (isConnected s) || onQuarter m then fetch s else s)).
Proof.
  intros cloud_enable time s.
  split; [apply handleEvents_connect | ]. split.
  - intros C. rewrite handleEvents_connect. apply tick_offline. exact C.
  - intros h m H. rewrite handleEvents_connect. apply tick_clock. exact H.
Qed.

Lemma connect_event_runs_tick_witness :
  isConnected startState = false /\
  handleEvents false (clock 12 7) (connectEvent false) startState = Ok (fetch startState).
Proof.
  split; [reflexivity | ].
  apply (proj1 (proj2 (connect_event_runs_tick false (clock 12 7) startState))).
  reflexivity.
Defined.

(** C5 (as stated) fails: after the top level has run one fetch is
    outstanding, and the next tick, or a connect event, issues a second
    one before any response has come. *)
Lemma second_fetch_while_one_is_outstanding :
  reachable defaultPriceColorMap switchModeUi startState /\
  pending startState = 1%nat /\
  step startState (Tick (clock 12 8)) (fetch startState) /\
  step startState (Event false (clock 12 8) (connectEvent false)) (fetch startState) /\
  pending (fetch startState) = 2%nat.
Proof.
  split; [exact startState_reachable | ].
  split; [reflexivity | ].
  split; [constructor; vm_compute; reflexivity | ].
  split; [constructor; vm_compute; reflexivity | reflexivity].
Qed.

Lemma tick_ignores_pending : forall time s n,
  tick time (set_pending n s)
  = s' <- tick time s ;; Ok (set_pending (n + (pending s' - pending s)) s').
Proof.
  intros time s n. unfold tick.
  change (isConnected (set_pending n s)) with (isConnected s).
  destruct (if negb (isConnected s) then Ok true
            else if DEBUG then Ok true else isQuarterOfAnHour time) as [[ | ] | f];
    cbn [bind]; [ | | reflexivity]; f_equal.
  - unfold call_HTTP_GET, set_pending.
    cbn [pending priceColorMap isConnected plugs_ui calls console]. f_equal. lia.
  - unfold set_pending. f_equal. lia.
Qed.

Lemma offline_fetches_pile_up : forall n,
  exists s, reachable defaultPriceColorMap switchModeUi s /\
            isConnected s = false /\ pending s = S n.
Proof.
  induction n as [ | n [s [R [C P]]]].
  - exists startState. split; [exact startState_reachable | split; reflexivity].
  - exists (fetch s). split; [ | split].
    + apply (reach_step _ _ s (Tick (clock 0 1))); [exact R | ].
      constructor. apply tick_offline. exact C.
    + exact C.
    + cbn. rewrite P. reflexivity.
Qed.

(** C5 (as amended). The script keeps no record of an outstanding fetch:
    [tick] decides without reading how many responses are awaited.  While
    the script is not connected every tick and every connect event issues
    one more fetch, so on the default table any number of fetches can be
    outstanding at once. *)
Theorem outstanding_fetches_are_not_tracked :
  (forall time s n,
      tick time (set_pending n s)
      = s' <- tick time s ;; Ok (set_pending (n + (pending s' - pending s)) s')) /\
  (forall time s,
      isConnected s = false ->
      step s (Tick time) (fetch s) /\ pending (fetch s) = S (pending s)) /\
  (forall cloud_enable time s,
      isConnected s = false ->
      step s (Event cloud_enable time (connectEvent cloud_enable)) (fetch s)) /\
  (forall n, exists s, reachable defaultPriceColorMap switchModeUi s /\
                       isConnected s = false /\ pending s = S n).
Proof.
  split; [exact tick_ignores_pending | ].
  split; [ | split; [ | exact offline_fetches_pile_up]].
  - intros time s C. split; [ | reflexivity].
    constructor. apply tick_offline. exact C.
  - intros cloud_enable time s C. constructor.
    rewrite handleEvents_connect. apply tick_offline. exact C.
Qed.

Lemma outstanding_fetches_are_not_tracked_witness :
  isConnected startState = false /\
  step startState (Tick (clock 12 8)) (fetch startState) /\
  pending (fetch startState) = S (pending startState).
Proof.
  split; [reflexivity | ].
  apply (proj1 (proj2 outstanding_fetches_are_not_tracked) (clock 12 8) startState).
  reflexivity.
Defined.

(** * Further properties of the script *)

(** ** Hex digits and channel values *)

(** The character of the hex digit [d], in upper or lower case. *)
Definition hexDigitChar (upper : bool) (d : Z) : ascii :=
  ascii_of_nat (Z.to_nat (if d <? 10 then 48 + d else (if upper then 55 else 87) + d)).

(** The two hex digits of [n], most significant first. *)
Definition hexPair (upper : bool) (n : Z) : string :=
  String (hexDigitChar upper (n / 16)) (String (hexDigitChar upper (n mod 16)) EmptyString).

Definition range256 : list Z := List.map Z.of_nat (seq 0 256).

Lemma in_range256 : forall n, 0 <= n <= 255 -> In n range256.
Proof.
  intros n H. unfold range256.
  replace n with (Z.of_nat (Z.to_nat n)) by lia.
  apply in_map, in_seq. lia.
Qed.

Definition readsBack (upper : bool) (n : Z) : bool :=
  match hexToInt (hexPair upper n) with
  | Ok m => m =? n
  | Fatal _ => false
  end.

Lemma readsBack_all :
  forallb (readsBack true) range256 && forallb (readsBack false) range256 = true.
Proof. vm_compute. reflexivity. Qed.

Lemma hexToInt_two_chars : forall c1 c2 rest,
  hexToInt (String c1 (String c2 rest)) = hexToInt (String c1 (String c2 EmptyString)).
Proof. reflexivity. Qed.

Lemma hexToInt_cases : forall s,
  (hexDigitsPrefix 2 s = true /\ exists n, hexToInt s = Ok n /\ 0 <= n <= 255) \/
  (hexDigitsPrefix 2 s = false /\ hexToInt s = die invalidHex).
Proof.
  intros s. unfold hexToInt.
  destruct s as [ | c1 s]; [right; split; reflexivity | ].
  cbn [hexDigitsPrefix]. unfold isHexDigit, at_.
  cbn [String.get option_map Nat.eqb]. fold (codeOf c1).
  destruct (digitValue 16 c1) as [d1 | ] eqn:D1.
  - destruct (hexCharToInt_digit _ _ D1) as [-> B1]. cbn [bind andb].
    destruct s as [ | c2 s]; [right; split; reflexivity | ].
    cbn [String.get option_map Nat.eqb pred]. fold (codeOf c2).
    destruct (digitValue 16 c2) as [d2 | ] eqn:D2.
    + destruct (hexCharToInt_digit _ _ D2) as [-> B2]. cbn [bind andb].
      left. split; [reflexivity | ]. eexists. split; [reflexivity | lia].
    + rewrite (hexCharToInt_nondigit _ D2). right. split; reflexivity.
  - rewrite (hexCharToInt_nondigit _ D1). right. split; reflexivity.
Qed.

(** X1. [hexToInt] reads back every value of [0..255] from its two hex
    digits, in upper or in lower case, whatever follows them; what it
    returns is always within [0..255]; and it ends in [die] exactly when
    one of the first two characters is missing or is not a hex digit. *)
Theorem hexToInt_reads_two_digits :
  (forall upper n rest,
      0 <= n <= 255 -> hexToInt (String.append (hexPair upper n) rest) = Ok n) /\
  (forall s n, hexToInt s = Ok n -> 0 <= n <= 255 /\ hexDigitsPrefix 2 s = true) /\
  (forall s, hexDigitsPrefix 2 s = false <-> hexToInt s = die invalidHex).
Proof.
  split; [ | split].
  - intros upper n rest H.
    change (String.append (hexPair upper n) rest)
      with (String (hexDigitChar upper (n / 16))
              (String (hexDigitChar upper (n mod 16)) rest)).
    rewrite hexToInt_two_chars. fold (hexPair upper n).
    pose proof readsBack_all as A. apply andb_true_iff in A. destruct A as [U L].
    rewrite forallb_forall in U, L.
    pose proof (in_range256 n H) as I.
    assert (R : readsBack upper n = true) by (destruct upper; [apply U | apply L]; exact I).
    unfold readsBack in R.
    destruct (hexToInt (hexPair upper n)) as [m | f]; [ | discriminate R].
    apply Z.eqb_eq in R. subst m. reflexivity.
  - intros s n H.
    destruct (hexToInt_cases s) as [[P [m [E B]]] | [_ E]].
    + rewrite E in H. inversion H; subst m. split; assumption.
    + rewrite E in H. discriminate H.
  - intros s. destruct (hexToInt_cases s) as [[P [m [E _]]] | [P E]].
    + rewrite P, E. split; discriminate.
    + split; intros _; assumption.
Qed.

Lemma hexToInt_reads_two_digits_witness :
  0 <= 163 <= 255 /\ hexToInt "a3ff" = Ok 163.
Proof.
  split; [lia | ].
  apply (proj1 hexToInt_reads_two_digits false 163 "ff"). lia.
Defined.

Definition scaleFormula (x : Z) : bool :=
  match shellyScale x with
  | Fin (Qmake z 1) => z =? (200 * x + 255) / 510
  | _ => false
  end.

Lemma scaleFormula_all : forallb scaleFormula range256 = true.
Proof. vm_compute. reflexivity. Qed.

Lemma shellyScale_formula : forall x,
  0 <= x <= 255 -> shellyScale x = Fin (inject_Z ((200 * x + 255) / 510)).
Proof.
  intros x H. pose proof scaleFormula_all as A. rewrite forallb_forall in A.
  specialize (A x (in_range256 x H)). unfold scaleFormula in A.
  destruct (shellyScale x) as [ | | [z [p | p | ]] | ]; try discriminate A.
  apply Z.eqb_eq in A. subst z. reflexivity.
Qed.

(** X2. On [0..255] the device value of a channel is the integer
    [(200 x + 255) / 510]; it lies within [0..100], with 0 for 0 and 100
    for 255, and it never decreases when the channel value grows. *)
Theorem shellyScale_bounded_monotone : forall x y,
  0 <= x -> x <= y -> y <= 255 ->
  shellyScale x = Fin (inject_Z ((200 * x + 255) / 510)) /\
  shellyScale y = Fin (inject_Z ((200 * y + 255) / 510)) /\
  0 <= (200 * x + 255) / 510 <= (200 * y + 255) / 510 /\
  (200 * y + 255) / 510 <= 100 /\
  shellyScale 0 = Fin 0 /\ shellyScale 255 = Fin 100.
Proof.
  intros x y Hx Hxy Hy.
  split; [apply shellyScale_formula; lia | ].
  split; [apply shellyScale_formula; lia | ].
  split; [split | split].
  - apply Z.div_pos; lia.
  - apply Z.div_le_mono; lia.
  - assert ((200 * y + 255) / 510 < 101) by (apply Z.div_lt_upper_bound; lia). lia.
  - split; vm_compute; reflexivity.
Qed.

Lemma shellyScale_bounded_monotone_witness :
  shellyScale 127 = Fin (inject_Z ((200 * 127 + 255) / 510)) /\
  shellyScale 128 = Fin (inject_Z ((200 * 128 + 255) / 510)) /\
  0 <= (200 * 127 + 255) / 510 <= (200 * 128 + 255) / 510 /\
  (200 * 128 + 255) / 510 <= 100 /\
  shellyScale 0 = Fin 0 /\ shellyScale 255 = Fin 100.
Proof. apply (shellyScale_bounded_monotone 127 128); lia. Defined.

(** ** Colours *)

(** A channel value the device takes: an integer of [0..100]. *)
Definition deviceValue (v : number) : Prop :=
  exists k, v = Fin (inject_Z k) /\ 0 <= k <= 100.

Definition deviceTriple (l : list number) : Prop :=
  exists r g b, l = [r; g; b] /\ deviceValue r /\ deviceValue g /\ deviceValue b.

Lemma hexToShellyColorValue_range : forall s v,
  hexToShellyColorValue s = Ok v -> deviceValue v.
Proof.
  intros s v H. unfold hexToShellyColorValue in H.
  destruct (hexToInt_cases s) as [[_ [n [E B]]] | [_ E]]; rewrite E in H;
    [ | discriminate H].
  cbn [bind] in H. inversion H; subst v.
  exists ((200 * n + 255) / 510). split; [apply shellyScale_formula; exact B | ].
  split; [apply Z.div_pos; lia | ].
  assert ((200 * n + 255) / 510 < 101) by (apply Z.div_lt_upper_bound; lia). lia.
Qed.

Lemma hexDigitsPrefix_length : forall n s,
  hexDigitsPrefix n s = true -> (n <= String.length s)%nat.
Proof.
  induction n as [ | n IH]; intros s H; [lia | ].
  destruct s as [ | c s]; [discriminate H | ].
  cbn [hexDigitsPrefix] in H. apply andb_true_iff in H. destruct H as [_ H].
  specialize (IH s H). cbn [String.length]. lia.
Qed.

Lemma RGBStringToShellyValues_range : forall s v,
  RGBStringToShellyValues s = Ok v -> deviceTriple v.
Proof.
  intros s v H. unfold RGBStringToShellyValues in H.
  destruct (hexToShellyColorValue (slice s 1 3)) as [r | ] eqn:R; [ | discriminate H].
  destruct (hexToShellyColorValue (slice s 3 5)) as [g | ] eqn:G; [ | discriminate H].
  destruct (hexToShellyColorValue (slice s 5 7)) as [b | ] eqn:B; [ | discriminate H].
  cbn [bind] in H. inversion H; subst v.
  exists r, g, b. split; [reflexivity | ].
  repeat split; eapply hexToShellyColorValue_range; eassumption.
Qed.

(** X3. What [RGBStringToShellyValues] returns is always three integers of
    [0..100]; its only failure is the [die] of an invalid hex value, which
    any text shorter than seven characters meets; and the character in
    front of the digits plays no part. *)
Theorem RGBStringToShellyValues_device_range :
  (forall s v, RGBStringToShellyValues s = Ok v -> deviceTriple v) /\
  (forall s f, RGBStringToShellyValues s = Fatal f -> f = Died invalidHex) /\
  (forall s, (String.length s < 7)%nat -> RGBStringToShellyValues s = die invalidHex) /\
  (forall marker marker' digits,
      RGBStringToShellyValues (String marker digits)
      = RGBStringToShellyValues (String marker' digits)).
Proof.
  split; [exact RGBStringToShellyValues_range | ].
  split; [ | split].
  - intros s f H. destruct s as [ | marker r].
    { change (RGBStringToShellyValues EmptyString)
        with (@die (list number) invalidHex) in H.
      unfold die in H. congruence. }
    destruct (RGBStringToShellyValues_cases marker r) as [[_ [v E]] | [_ E]];
      rewrite E in H; [discriminate H | ].
    unfold die in H. congruence.
  - intros s L. destruct s as [ | marker r]; [reflexivity | ].
    destruct (RGBStringToShellyValues_cases marker r) as [[P _] | [_ E]]; [ | exact E].
    apply hexDigitsPrefix_length in P. cbn [String.length] in L. lia.
  - reflexivity.
Qed.

Fixpoint allLowercase (s : string) : bool :=
  match s with
  | String c rest => (96 <? codeOf c) && (codeOf c <? 123) && allLowercase rest
  | EmptyString => true
  end.

Definition foundAsListed (p : string * string) : bool :=
  match lookupColor COLOR_NAMES (fst p) with
  | Some rgbString => String.eqb rgbString (snd p)
  | None => false
  end.

Lemma COLOR_NAMES_found : forallb foundAsListed COLOR_NAMES = true.
Proof. vm_compute. reflexivity. Qed.

Lemma COLOR_NAMES_shape :
  forallb (fun p => allLowercase (fst p) && wellFormedHex (snd p)) COLOR_NAMES = true.
Proof. vm_compute. reflexivity. Qed.

(** X4. A colour name is found exactly when the table lists it, with the
    value listed, so no entry of the table hides another; names are spelled
    in lower case only; what a name gives is a well-formed hex colour that
    converts to three integers of [0..100]; any other name ends in [die]
    with the message that carries the name. *)
Theorem colorNameToRGBString_table :
  (forall name rgbString,
      colorNameToRGBString name = Ok rgbString <-> In (name, rgbString) COLOR_NAMES) /\
  (forall name rgbString,
      colorNameToRGBString name = Ok rgbString ->
      allLowercase name = true /\ wellFormedHex rgbString = true /\
      exists v, RGBStringToShellyValues rgbString = Ok v /\ deviceTriple v) /\
  (forall name,
      (forall rgbString, ~ In (name, rgbString) COLOR_NAMES) ->
      colorNameToRGBString name = die (unknownColor name)).
Proof.
  assert (Found : forall name rgbString,
             colorNameToRGBString name = Ok rgbString <-> In (name, rgbString) COLOR_NAMES).
  { intros name rgbString. unfold colorNameToRGBString. split.
    - intros H. apply lookupColor_In.
      destruct (lookupColor COLOR_NAMES name); [ | discriminate H].
      inversion H. reflexivity.
    - intros I. pose proof COLOR_NAMES_found as A. rewrite forallb_forall in A.
      specialize (A _ I). unfold foundAsListed in A. cbn [fst snd] in A.
      destruct (lookupColor COLOR_NAMES name) as [r | ]; [ | discriminate A].
      apply String.eqb_eq in A. subst r. reflexivity. }
  split; [exact Found | ]. split.
  - intros name rgbString H. pose proof (proj1 (Found _ _) H) as I.
    pose proof COLOR_NAMES_shape as A. rewrite forallb_forall in A.
    specialize (A _ I). cbn [fst snd] in A. apply andb_true_iff in A. destruct A as [L W].
    split; [exact L | ]. split; [exact W | ].
    unfold colorNameToRGBString in H.
    destruct (lookupColor COLOR_NAMES name) as [r | ] eqn:E; [ | discriminate H].
    inversion H; subst r.
    destruct (colorName_converts _ _ E) as [v V].
    exists v. split; [exact V | exact (RGBStringToShellyValues_range _ _ V)].
  - intros name N. unfold colorNameToRGBString.
    destruct (lookupColor COLOR_NAMES name) as [r | ] eqn:E; [ | reflexivity].
    exfalso. exact (N r (lookupColor_In _ _ _ E)).
Qed.

Lemma colorNameToRGBString_table_witness :
  allLowercase "turquoise" = true /\ wellFormedHex "#40E0D0" = true /\
  exists v, RGBStringToShellyValues "#40E0D0" = Ok v /\ deviceTriple v.
Proof.
  apply (proj1 (proj2 colorNameToRGBString_table) "turquoise" "#40E0D0").
  vm_compute. reflexivity.
Defined.

(** ** Validation, once more *)

(** An entry after validation: the four fields of the configuration as
    they were, and three device values beside them. *)
Definition filledFrom (e e' : priceColorEntry) : Prop :=
  fromPriceWithTax e' = fromPriceWithTax e /\ color e' = color e /\
  onBrightness e' = onBrightness e /\ offBrightness e' = offBrightness e /\
  exists v, shellyRGB e' = Some v /\ deviceTriple v.

Lemma entryRGB_range : forall e v, entryRGB e = Ok v -> deviceTriple v.
Proof.
  intros e v H. unfold entryRGB in H.
  destruct (if startsWithHash (color e) then Ok (color e)
            else colorNameToRGBString (color e)) as [rgbString | f];
    [ | discriminate H].
  exact (RGBStringToShellyValues_range _ _ H).
Qed.

Lemma precalculated_filled : forall map map',
  Forall2 precalculated map map' -> Forall2 filledFrom map map'.
Proof.
  induction 1 as [ | e e' map map' [v [E ->]] _ IH]; constructor; [ | exact IH].
  repeat split. exists v. split; [reflexivity | exact (entryRGB_range _ _ E)].
Qed.

Lemma precalcLoop_fixed : forall map map',
  Forall2 precalculated map map' -> precalcLoop map' = Ok map'.
Proof.
  induction 1 as [ | e e' map map' [v [E ->]] _ IH]; [reflexivity | ].
  cbn [precalcLoop].
  change (entryRGB (set_shellyRGB v e)) with (entryRGB e). rewrite E. cbn [bind].
  rewrite IH. reflexivity.
Qed.

Lemma precalculated_accepted : forall map map',
  Forall2 precalculated map map' -> acceptedTable map -> acceptedTable map'.
Proof.
  intros map map' R [[first [rest [M F]]] [S [B A]]].
  split; [ | split; [ | split]].
  - rewrite M in R. inversion R as [ | ? e' ? rest' [v [_ ->]] _]; subst.
    exists (set_shellyRGB v first), rest'. split; [reflexivity | exact F].
  - rewrite (precalculated_floors _ _ R). exact S.
  - clear -R B. induction R as [ | e e' map map' [v [_ ->]] _ IH]; [constructor | ].
    inversion B; subst. constructor; [assumption | apply IH; assumption].
  - clear -R A. induction R as [ | e e' map map' [v [_ ->]] _ IH]; [constructor | ].
    inversion A; subst. constructor; [assumption | apply IH; assumption].
Qed.

Lemma ensureSwitchMode_light : forall s,
  switch0_on (plugs_ui (ensureSwitchMode s)) = switch0_on (plugs_ui s) /\
  switch0_off (plugs_ui (ensureSwitchMode s)) = switch0_off (plugs_ui s) /\
  calls (ensureSwitchMode s)
  = if String.eqb (leds_mode (plugs_ui s)) "switch" then calls s
    else PLUGS_UI_SetConfig (plugs_ui (ensureSwitchMode s)) :: calls s.
Proof.
  intros s. unfold ensureSwitchMode.
  destruct (String.eqb (leds_mode (plugs_ui s)) "switch"); repeat split.
Qed.

Lemma ensureSwitchMode_done : forall s,
  leds_mode (plugs_ui s) = "switch" -> ensureSwitchMode s = s.
Proof. intros s H. unfold ensureSwitchMode. rewrite H. reflexivity. Qed.

(** X5. When [checkConfig] accepts, it leaves the floors, colours and
    brightness of every entry as written and puts three integers of
    [0..100] beside them; the LED is in switch mode afterwards, by one
    configuration call if it was not and by none if it was, its colours
    untouched; the connectivity flag, the awaited responses and the console
    are as before; and running [checkConfig] again on the result changes
    nothing. *)
Theorem checkConfig_fills_and_settles : forall s s',
  checkConfig s = Ok s' ->
  checkConfig s' = Ok s' /\
  Forall2 filledFrom (priceColorMap s) (priceColorMap s') /\
  leds_mode (plugs_ui s') = "switch" /\
  switch0_on (plugs_ui s') = switch0_on (plugs_ui s) /\
  switch0_off (plugs_ui s') = switch0_off (plugs_ui s) /\
  calls s' = (if String.eqb (leds_mode (plugs_ui s)) "switch" then calls s
              else PLUGS_UI_SetConfig (plugs_ui s') :: calls s) /\
  isConnected s' = isConnected s /\ pending s' = pending s /\ console s' = console s.
Proof.
  intros s s' H.
  destruct (checkConfig_Ok_inv s s' H) as [A [R E]].
  destruct (ensureSwitchMode_frame s) as [_ [C [P [L M]]]].
  destruct (ensureSwitchMode_light s) as [On [Off K]].
  assert (U : plugs_ui s' = plugs_ui (ensureSwitchMode s)) by (rewrite E; reflexivity).
  split.
  - pose proof (precalculated_accepted _ _ R A) as A'.
    destruct (checkConfig_accepts s' A') as [map'' [F [_ E']]].
    rewrite (precalcLoop_fixed _ _ R) in F. inversion F; subst map''.
    rewrite E'. f_equal. rewrite ensureSwitchMode_done by (rewrite U; exact M).
    destruct s'. reflexivity.
  - split; [exact (precalculated_filled _ _ R) | ].
    rewrite U. split; [exact M | ]. split; [exact On | ]. split; [exact Off | ].
    split; [rewrite E; exact K | ].
    rewrite E. repeat split; assumption.
Qed.

Lemma checkConfig_default :
  checkConfig (boot defaultPriceColorMap switchModeUi) = Ok validatedDefault.
Proof. vm_compute. reflexivity. Defined.

Lemma checkConfig_fills_and_settles_witness :
  checkConfig validatedDefault = Ok validatedDefault /\
  Forall2 filledFrom defaultPriceColorMap (priceColorMap validatedDefault).
Proof.
  destruct (checkConfig_fills_and_settles
              (boot defaultPriceColorMap switchModeUi) validatedDefault
              checkConfig_default) as [Again [Filled _]].
  split; [exact Again | exact Filled].
Defined.

(** ** Ticks and events *)

Lemma isQuarterOfAnHour_cases : forall time,
  (hexDigitsPrefix 2 (slice time 3 5) = true /\ exists b, isQuarterOfAnHour time = Ok b) \/
  (hexDigitsPrefix 2 (slice time 3 5) = false /\ isQuarterOfAnHour time = die invalidHex).
Proof.
  intros time. unfold isQuarterOfAnHour.
  destruct (slice time 3 5) as [ | c1 m]; [right; split; reflexivity | ].
  cbn [hexDigitsPrefix]. unfold isHexDigit, at_.
  cbn [String.get option_map Nat.eqb]. fold (codeOf c1).
  destruct (digitValue 16 c1) as [d1 | ] eqn:D1.
  - destruct (hexCharToInt_digit _ _ D1) as [-> _]. cbn [bind andb].
    destruct m as [ | c2 m]; [right; split; reflexivity | ].
    cbn [String.get option_map Nat.eqb pred]. fold (codeOf c2).
    destruct (digitValue 16 c2) as [d2 | ] eqn:D2.
    + destruct (hexCharToInt_digit _ _ D2) as [-> _]. cbn [bind andb].
      left. split; [reflexivity | eexists; reflexivity].
    + rewrite (hexCharToInt_nondigit _ D2). right. split; reflexivity.
  - rewrite (hexCharToInt_nondigit _ D1). right. split; reflexivity.
Qed.

Lemma tick_cases : forall time s,
  (tick time s = Ok s \/ tick time s = Ok (fetch s)) \/
  (tick time s = die invalidHex /\ isConnected s = true /\
   hexDigitsPrefix 2 (slice time 3 5) = false).
Proof.
  intros time s. destruct (isConnected s) eqn:C.
  - rewrite (tick_online _ _ C).
    destruct (isQuarterOfAnHour_cases time) as [[_ [[ | ] ->]] | [P ->]]; cbn [bind].
    + left. right. reflexivity.
    + left. left. reflexivity.
    + right. repeat split. exact P.
  - left. right. apply tick_offline. exact C.
Qed.

(** X6. A tick ends the script only when it is connected and the two
    minute characters of the clock text are not hex digits, as for a text
    shorter than five characters; not connected it does not read the
    clock.  Otherwise it leaves the state as it is or adds one [HTTP.GET]
    of the price URL with timeout 10, one more awaited response, and
    nothing else. *)
Theorem tick_stops_only_on_unreadable_clock : forall time s,
  (tick time s = die invalidHex <->
   isConnected s = true /\ hexDigitsPrefix 2 (slice time 3 5) = false) /\
  (forall f, tick time s = Fatal f -> f = Died invalidHex) /\
  ((String.length time < 5)%nat -> isConnected s = true -> tick time s = die invalidHex) /\
  (forall s', tick time s = Ok s' ->
     s' = s \/
     (calls s' = HTTP_GET PRICE_URL 10 :: calls s /\ pending s' = S (pending s) /\
      plugs_ui s' = plugs_ui s /\ isConnected s' = isConnected s /\
      console s' = console s /\ priceColorMap s' = priceColorMap s)).
Proof.
  intros time s. pose proof (tick_cases time s) as T.
  split; [ | split; [ | split]].
  - split.
    + intros D. destruct T as [[E | E] | [_ [C P]]]; [ | | split; assumption];
        rewrite E in D; discriminate D.
    + intros [C P]. rewrite (tick_online _ _ C).
      destruct (isQuarterOfAnHour_cases time) as [[P' _] | [_ ->]]; [congruence | reflexivity].
  - intros f F. destruct T as [[E | E] | [E _]]; rewrite E in F;
      try discriminate F. unfold die in F. congruence.
  - intros L C. rewrite (tick_online _ _ C).
    destruct (isQuarterOfAnHour_cases time) as [[P _] | [_ ->]]; [ | reflexivity].
    exfalso. apply hexDigitsPrefix_length in P.
    assert (String.length (slice time 3 5) <= String.length time - 3)%nat; [ | lia].
    unfold slice. clear.
    destruct time as [ | a [ | b [ | c [ | d [ | e t]]]]];
      cbn [Nat.sub substring String.length]; try lia.
    destruct t; cbn [substring String.length]; lia.
  - intros s' E. destruct T as [[E' | E'] | [E' _]]; rewrite E' in E;
      inversion E; [left; reflexivity | right; repeat split].
Qed.

Lemma tick_stops_only_on_unreadable_clock_witness :
  (String.length "1:07" < 5)%nat /\
  tick "1:07" (set_isConnected true validatedDefault) = die invalidHex.
Proof.
  split; [cbn; lia | ].
  apply (proj1 (proj2 (proj2 (tick_stops_only_on_unreadable_clock
           "1:07" (set_isConnected true validatedDefault)))));
    [cbn; lia | reflexivity].
Defined.

Definition isConnectEvent (cloud_enable : bool) (ev : shellyEvent) : bool :=
  match info ev with
  | InfoObject i =>
      if cloud_enable then named "cloud" "connected" i
      else named "wifi" "sta_ip_acquired" i
  | _ => false
  end.

Ltac by_name x n :=
  destruct (String.eqb_spec x n) as [-> | ?].

Definition isNullInfo (ev : shellyEvent) : bool :=
  match info ev with
  | InfoNull => true
  | _ => false
  end.

Definition nullRead : fatal := Threw "TypeError: cannot read property of null".

Lemma handleEvents_dispatch : forall cloud_enable time ev s,
  handleEvents cloud_enable time ev s
  = if isNullInfo ev then Fatal nullRead
    else if isDisconnectEvent ev then Ok (goWhite s)
    else if isConnectEvent cloud_enable ev then tick time s
    else Ok s.
Proof.
  intros cloud_enable time ev s.
  unfold handleEvents, isNullInfo, isDisconnectEvent, isConnectEvent.
  destruct (info ev) as [[[c | ] [e | ]] | | ]; unfold named; cbn [component event];
    try reflexivity; try (destruct cloud_enable; reflexivity).
  by_name c "cloud"; [ | by_name c "wifi"];
    (by_name e "connected";
     [ | by_name e "sta_ip_acquired";
         [ | by_name e "sta_disconnected"; [ | by_name e "disconnected"]]]);
    destruct cloud_enable; cbn [String.eqb Ascii.eqb Bool.eqb andb orb bind];
    try rewrite disConnected_eq; try reflexivity;
    destruct (tick time s); reflexivity.
Qed.

Lemma connect_is_not_disconnect : forall cloud_enable ev,
  isConnectEvent cloud_enable ev = true -> isDisconnectEvent ev = false.
Proof.
  intros cloud_enable ev. unfold isConnectEvent, isDisconnectEvent.
  destruct (info ev) as [[[c | ] [e | ]] | | ]; unfold named; cbn [component event];
    try (destruct cloud_enable; discriminate).
  destruct cloud_enable; intros H; apply andb_true_iff in H; destruct H as [C E];
    apply String.eqb_eq in C, E; subst c e; reflexivity.
Qed.

(** X7. An event is handled by its kind alone: a disconnect event, the
    network's or the cloud's, runs [disConnected] whether the cloud is
    enabled or not; the connect event of the layer in use runs [tick]; the
    connect event of the other layer, an event whose [info] is no object
    and any other event leave the state as it is.  The handler ends the
    script in two cases only: an event whose [info] is [null], which passes
    the test of its type and fails at the read of its component, and a
    connect event while connected on a clock text that [tick] cannot
    read. *)
Theorem handleEvents_by_kind : forall cloud_enable time ev s,
  handleEvents cloud_enable time ev s
  = (if isNullInfo ev then Fatal nullRead
     else if isDisconnectEvent ev then Ok (goWhite s)
     else if isConnectEvent cloud_enable ev then tick time s
     else Ok s) /\
  (isConnectEvent cloud_enable ev = true -> isDisconnectEvent ev = false) /\
  (isConnectEvent (negb cloud_enable) ev = true ->
   handleEvents cloud_enable time ev s = Ok s) /\
  (info ev = InfoOther -> handleEvents cloud_enable time ev s = Ok s) /\
  (info ev = InfoNull -> handleEvents cloud_enable time ev s = Fatal nullRead) /\
  (forall f, handleEvents cloud_enable time ev s = Fatal f ->
             (info ev = InfoNull /\ f = nullRead) \/
             (isConnectEvent cloud_enable ev = true /\ isConnected s = true /\
              hexDigitsPrefix 2 (slice time 3 5) = false /\ f = Died invalidHex)).
Proof.
  intros cloud_enable time ev s.
  pose proof (handleEvents_dispatch cloud_enable time ev s) as D.
  split; [exact D | ].
  split; [apply connect_is_not_disconnect | ].
  split; [ | split; [ | split]].
  - intros O. rewrite D, (connect_is_not_disconnect _ _ O).
    revert O. unfold isConnectEvent, isNullInfo.
    destruct (info ev) as [[[c | ] [e | ]] | | ]; unfold named; cbn [component event];
      try (destruct cloud_enable; discriminate).
    destruct cloud_enable; cbn [negb]; intros H; apply andb_true_iff in H;
      destruct H as [C E]; apply String.eqb_eq in C, E; subst c e; reflexivity.
  - intros N. unfold handleEvents. rewrite N. reflexivity.
  - intros N. unfold handleEvents. rewrite N. reflexivity.
  - intros f F. rewrite D in F. unfold isNullInfo in F.
    destruct (info ev) as [i | | ] eqn:I.
    + right. destruct (isDisconnectEvent ev); [discriminate F | ].
      destruct (isConnectEvent cloud_enable ev); [ | discriminate F].
      split; [reflexivity | ].
      destruct (tick_cases time s) as [[E | E] | [E [C P]]]; rewrite E in F;
        try discriminate F.
      split; [exact C | ]. split; [exact P | ]. unfold die in F. congruence.
    + left. split; [reflexivity | congruence].
    + exfalso. unfold isDisconnectEvent, isConnectEvent in F. rewrite I in F. discriminate F.
Qed.

Lemma handleEvents_by_kind_witness :
  handleEvents true (clock 12 7)
    {| info := InfoObject {| component := FString "wifi";
                             event := FString "sta_ip_acquired" |} |}
    startState
  = Ok startState.
Proof.
  apply (proj1 (proj2 (proj2 (handleEvents_by_kind true (clock 12 7)
           {| info := InfoObject {| component := FString "wifi";
                                    event := FString "sta_ip_acquired" |} |}
           startState)))).
  reflexivity.
Defined.

(** ** The connectivity flag *)

(** The flag after an input, from the flag before. *)
Definition nextConnected (i : input) (connectedBefore : bool) : bool :=
  match i with
  | Tick _ => connectedBefore
  | Event _ _ ev => if isDisconnectEvent ev then false else connectedBefore
  | Response resp => if responseFailed resp then connectedBefore else true
  end.

Lemma step_connected : forall s i s',
  step s i s' -> isConnected s' = nextConnected i (isConnected s).
Proof.
  intros s i s' St.
  destruct St as [time s s' T | cloud_enable time ev s s' E | resp s n s' b P H];
    cbn [nextConnected].
  - destruct (tick_cases time s) as [[E | E] | [E _]]; rewrite E in T;
      inversion T; reflexivity.
  - rewrite handleEvents_dispatch in E.
    destruct (isNullInfo ev); [discriminate E | ].
    destruct (isDisconnectEvent ev).
    + inversion E. apply goWhite_frame.
    + destruct (isConnectEvent cloud_enable ev); [ | inversion E; reflexivity].
      destruct (tick_cases time s) as [[E' | E'] | [E' _]]; rewrite E' in E;
        inversion E; reflexivity.
  - destruct (responseFailed resp) eqn:F.
    + rewrite (handleResponse_failed _ _ F) in H. inversion H.
      change (isConnected (set_pending n s)) with (isConnected s).
      destruct (isConnected s) eqn:C; cbn [console_log isConnected]; [exact C | ].
      apply goWhite_frame.
    + exact (proj2 (handleResponse_success_disconnections _ _ _ _ F H)).
Qed.

(** X8. The connectivity flag moves as a two-state machine over the
    inputs: a tick and a connect event leave it; a disconnect event clears
    it; a response that fails leaves it, set or not; a 200 response that the
    handler survives sets it.  So a connected script is disconnected by a
    disconnect event only, and a disconnected one is connected by a 200
    response only. *)
Theorem connectivity_transitions : forall s i s',
  step s i s' ->
  isConnected s' = nextConnected i (isConnected s) /\
  (isConnected s = true -> isConnected s' = false ->
   exists cloud_enable time ev, i = Event cloud_enable time ev /\ isDisconnectEvent ev = true) /\
  (isConnected s = false -> isConnected s' = true ->
   exists resp, i = Response resp /\ responseFailed resp = false).
Proof.
  intros s i s' St. pose proof (step_connected s i s' St) as N.
  split; [exact N | ]. split.
  - intros C C'. rewrite C, C' in N. destruct i as [time | cloud_enable time ev | resp];
      cbn [nextConnected] in N; try discriminate N.
    + exists cloud_enable, time, ev. split; [reflexivity | ].
      destruct (isDisconnectEvent ev); [reflexivity | discriminate N].
    + destruct (responseFailed resp); discriminate N.
  - intros C C'. rewrite C, C' in N. destruct i as [time | cloud_enable time ev | resp];
      cbn [nextConnected] in N; try discriminate N.
    + destruct (isDisconnectEvent ev); discriminate N.
    + exists resp. split; [reflexivity | ].
      destruct (responseFailed resp); [discriminate N | reflexivity].
Qed.

Lemma onlineState_step :
  step startState (Response (Some (priceResponse 0.05))) onlineState.
Proof. apply (step_response _ _ 0%nat _ true); vm_compute; reflexivity. Defined.

Lemma connectivity_transitions_witness :
  isConnected onlineState
  = nextConnected (Response (Some (priceResponse 0.05))) (isConnected startState).
Proof.
  exact (proj1 (connectivity_transitions startState
                  (Response (Some (priceResponse 0.05))) onlineState onlineState_step)).
Defined.

(** ** What the light shows *)

Definition whiteUi : plugsUiConfig :=
  {| leds_mode := "switch";
     switch0_on := {| rgb := Some white; brightness := 50 |};
     switch0_off := {| rgb := Some white; brightness := 10 |} |}.

(** The device shows the entry [e]: its colour for on and off, its two
    brightness values. *)
Definition showsEntry (e : priceColorEntry) (ui : plugsUiConfig) : Prop :=
  ui = {| leds_mode := "switch";
          switch0_on := {| rgb := shellyRGB e; brightness := onBrightness e |};
          switch0_off := {| rgb := shellyRGB e; brightness := offBrightness e |} |}.

Lemma priceLoop_In : forall price map i e,
  priceLoop price map i = Ok (Some e) -> In e map.
Proof.
  intros price map i. induction i as [ | j IH]; intros e H; [discriminate H | ].
  cbn [priceLoop] in H.
  destruct (getProperty price "PriceWithTax") as [v | f]; [ | discriminate H].
  cbn [bind] in H.
  destruct (nth_error map j) as [e' | ] eqn:N; [ | discriminate H].
  destruct (js_ge v (fromPriceWithTax e')) as [[ | ] | f]; cbn [bind] in H.
  - inversion H; subst e'. exact (nth_error_In _ _ N).
  - apply IH. exact H.
  - discriminate H.
Qed.

Lemma handleResponse_success_inv : forall resp s s' b,
  responseFailed resp = false ->
  handleResponse resp s = Ok (s', b) ->
  b = true /\
  exists e, In e (priceColorMap s) /\
            s' = configureLight (shellyRGB e) (onBrightness e) (offBrightness e)
                   (markOnline s).
Proof.
  intros resp s s' b F H. destruct resp as [r | ]; [ | discriminate F].
  cbn [responseFailed] in F. apply negb_false_iff in F.
  unfold handleResponse in H. rewrite F in H. fold (markOnline s) in H.
  assert (M : priceColorMap (markOnline s) = priceColorMap s).
  { unfold markOnline. destruct (isConnected s); reflexivity. }
  destruct (body r) as [price | ]; [ | discriminate H].
  destruct (priceLoop price (priceColorMap (markOnline s))
              (List.length (priceColorMap (markOnline s)))) as [[e | ] | f] eqn:L;
    cbn [bind] in H; try discriminate H.
  inversion H; subst s' b. split; [reflexivity | ].
  exists e. split; [ | reflexivity]. rewrite <- M. exact (priceLoop_In _ _ _ _ L).
Qed.

Lemma markOnline_frame : forall s,
  plugs_ui (markOnline s) = plugs_ui s /\ priceColorMap (markOnline s) = priceColorMap s /\
  calls (markOnline s) = calls s /\ pending (markOnline s) = pending s /\
  isConnected (markOnline s) = true.
Proof.
  intros s. unfold markOnline. destruct (isConnected s) eqn:C; repeat split. exact C.
Qed.

Lemma configureLight_shows : forall e s,
  leds_mode (plugs_ui s) = "switch" ->
  showsEntry e (plugs_ui (configureLight (shellyRGB e) (onBrightness e) (offBrightness e) s)).
Proof.
  intros e s M. unfold configureLight, showsEntry. rewrite M. reflexivity.
Qed.

Lemma goWhite_write : forall s,
  leds_mode (plugs_ui s) = "switch" ->
  plugs_ui (goWhite s) = whiteUi /\ calls (goWhite s) = PLUGS_UI_SetConfig whiteUi :: calls s.
Proof.
  intros s M. unfold goWhite, configureLight. cbn [plugs_ui console_log].
  rewrite M. split; reflexivity.
Qed.

Lemma configureLight_write : forall e s,
  leds_mode (plugs_ui s) = "switch" ->
  calls (configureLight (shellyRGB e) (onBrightness e) (offBrightness e) s)
  = PLUGS_UI_SetConfig
      (plugs_ui (configureLight (shellyRGB e) (onBrightness e) (offBrightness e) s))
    :: calls s.
Proof.
  intros e s M. unfold configureLight. rewrite M. reflexivity.
Qed.

(** The inputs on which the script writes the light of a device in switch
    mode: those that run [disConnected], and a response with status 200. *)
Definition writesLight (i : input) (s : script) : bool :=
  drivesOffline i s
  || match i with
     | Response resp => negb (responseFailed resp)
     | _ => false
     end.

Lemma tick_light : forall time s s',
  tick time s = Ok s' ->
  priceColorMap s' = priceColorMap s /\ plugs_ui s' = plugs_ui s /\
  isConnected s' = isConnected s /\
  (calls s' = calls s \/ calls s' = HTTP_GET PRICE_URL 10 :: calls s).
Proof.
  intros time s s' T.
  destruct (tick_cases time s) as [[E | E] | [E _]]; rewrite E in T; inversion T;
    repeat split; [left | right]; reflexivity.
Qed.

(** X9. Whatever the device holds when an input comes, the table of the
    script stays as it is and the input decides what the script writes.
    On a device in switch mode an input that runs [disConnected] writes the
    white light at 50 and 10, and a response with status 200 that the
    handler survives writes an entry of the table, the same colour for on
    and off; any other input, on any device, writes no configuration.  A
    white light is not taken away by an input that leaves the script not
    connected. *)
Theorem step_writes_white_or_entry : forall s i s',
  step s i s' ->
  priceColorMap s' = priceColorMap s /\
  (writesLight i s = false ->
   plugs_ui s' = plugs_ui s /\
   (calls s' = calls s \/ calls s' = HTTP_GET PRICE_URL 10 :: calls s)) /\
  (leds_mode (plugs_ui s) = "switch" -> drivesOffline i s = true ->
   plugs_ui s' = whiteUi /\ calls s' = PLUGS_UI_SetConfig whiteUi :: calls s) /\
  (leds_mode (plugs_ui s) = "switch" ->
   forall resp, i = Response resp -> responseFailed resp = false ->
   exists e, In e (priceColorMap s) /\ showsEntry e (plugs_ui s') /\
             calls s' = PLUGS_UI_SetConfig (plugs_ui s') :: calls s) /\
  (plugs_ui s = whiteUi -> isConnected s' = false -> plugs_ui s' = whiteUi).
Proof.
  intros s i s' St.
  destruct St as [time s s' T | cloud_enable time ev s s' E | resp s n s' b P H];
    unfold writesLight; cbn [drivesOffline].
  - destruct (tick_light _ _ _ T) as [M [U [_ K]]].
    split; [exact M | ]. split; [intros _; split; assumption | ].
    split; [intros _ X; discriminate X | ].
    split; [intros _ resp X; discriminate X | ].
    intros W _. rewrite U. exact W.
  - rewrite handleEvents_dispatch in E.
    destruct (isNullInfo ev); [discriminate E | ].
    destruct (isDisconnectEvent ev).
    + inversion E. split; [apply goWhite_frame | ].
      split; [intros X; discriminate X | ].
      split; [intros M _; exact (goWhite_write s M) | ].
      split; [intros _ resp X; discriminate X | ].
      intros W _. apply goWhite_write. rewrite W. reflexivity.
    + assert (Same : priceColorMap s' = priceColorMap s /\ plugs_ui s' = plugs_ui s /\
                     (calls s' = calls s \/ calls s' = HTTP_GET PRICE_URL 10 :: calls s)).
      { destruct (isConnectEvent cloud_enable ev).
        - destruct (tick_light _ _ _ E) as [M [U [_ K]]]. repeat split; assumption.
        - inversion E. repeat split. left. reflexivity. }
      destruct Same as [M [U K]].
      split; [exact M | ]. split; [intros _; split; assumption | ].
      split; [intros _ X; discriminate X | ].
      split; [intros _ resp X; discriminate X | ].
      intros W _. rewrite U. exact W.
  - destruct (responseFailed resp) eqn:F; cbn [andb negb orb].
    + rewrite (handleResponse_failed _ _ F) in H.
      change (isConnected (set_pending n s)) with (isConnected s) in H.
      destruct (isConnected s) eqn:C; inversion H; cbn [negb].
      * split; [reflexivity | ].
        split; [intros _; split; [reflexivity | left; reflexivity] | ].
        split; [intros _ X; discriminate X | ].
        split; [intros _ r X Y; inversion X; subst r; congruence | ].
        intros W _. exact W.
      * split; [apply (goWhite_frame (set_pending n s)) | ].
        split; [intros X; discriminate X | ].
        split; [intros M _; exact (goWhite_write (set_pending n s) M) | ].
        split; [intros _ r X Y; inversion X; subst r; congruence | ].
        intros W _. apply (goWhite_write (set_pending n s)).
        cbn [plugs_ui set_pending]. rewrite W. reflexivity.
    + destruct (handleResponse_success_disconnections _ _ _ _ F H) as [_ On].
      destruct (handleResponse_success_inv _ _ _ _ F H) as [_ [e [I ->]]].
      destruct (markOnline_frame (set_pending n s)) as [U [Mp [K _]]].
      destruct (configureLight_frame (shellyRGB e) (onBrightness e) (offBrightness e)
                  (markOnline (set_pending n s))) as [_ [_ Mp']].
      split; [rewrite Mp', Mp; reflexivity | ].
      split; [intros X; discriminate X | ].
      split; [intros _ X; discriminate X | ].
      split.
      * intros M r _ _. exists e. split; [exact I | ].
        assert (M' : leds_mode (plugs_ui (markOnline (set_pending n s))) = "switch")
          by (rewrite U; exact M).
        split; [exact (configureLight_shows e _ M') | ].
        rewrite (configureLight_write e _ M'), K. reflexivity.
      * intros _ X. rewrite On in X. discriminate X.
Qed.

Lemma step_writes_white_or_entry_witness :
  exists e, In e (priceColorMap startState) /\ showsEntry e (plugs_ui onlineState) /\
            calls onlineState = PLUGS_UI_SetConfig (plugs_ui onlineState) :: calls startState.
Proof.
  exact (proj1 (proj2 (proj2 (proj2
           (step_writes_white_or_entry startState (Response (Some (priceResponse 0.05)))
              onlineState onlineState_step))))
           eq_refl (Some (priceResponse 0.05)) eq_refl eq_refl).
Defined.

Lemma configureLight_other_mode : forall v onB offB s,
  leds_mode (plugs_ui s) <> "switch" ->
  configureLight v onB offB s = console_log (LogIncorrectMode (leds_mode (plugs_ui s))) s.
Proof.
  intros v onB offB s M. unfold configureLight.
  destruct (String.eqb_spec (leds_mode (plugs_ui s)) "switch"); [contradiction | reflexivity].
Qed.

(** X10. [disConnected] never fails.  It clears the flag and, on a device
    in switch mode, puts the white light at 50 and 10; on a device in
    another mode it leaves the configuration alone.  Run again on its own
    result it leaves the device and the flag as they are. *)
Theorem disConnected_settles : forall s,
  exists s1,
    disConnected s = Ok s1 /\
    isConnected s1 = false /\ pending s1 = pending s /\
    priceColorMap s1 = priceColorMap s /\
    (leds_mode (plugs_ui s) = "switch" -> plugs_ui s1 = whiteUi) /\
    (leds_mode (plugs_ui s) <> "switch" -> plugs_ui s1 = plugs_ui s /\ calls s1 = calls s) /\
    exists s2, disConnected s1 = Ok s2 /\ plugs_ui s2 = plugs_ui s1 /\
               isConnected s2 = isConnected s1.
Proof.
  intros s. exists (goWhite s). split; [apply disConnected_eq | ].
  destruct (goWhite_frame s) as [C [P M]].
  split; [exact C | ]. split; [exact P | ]. split; [exact M | ].
  assert (Other : forall t, leds_mode (plugs_ui t) <> "switch" ->
                            plugs_ui (goWhite t) = plugs_ui t /\ calls (goWhite t) = calls t).
  { intros t N. unfold goWhite.
    rewrite (configureLight_other_mode _ _ _ (console_log LogDisconnected t) N).
    split; reflexivity. }
  split; [intros W; exact (goWhite_light s W) | ].
  split; [exact (Other s) | ].
  exists (goWhite (goWhite s)). split; [apply disConnected_eq | ].
  split; [ | rewrite C; apply goWhite_frame].
  destruct (String.eqb_spec (leds_mode (plugs_ui s)) "switch") as [W | N].
  - rewrite (goWhite_light s W). apply goWhite_light. rewrite (goWhite_light s W). reflexivity.
  - apply Other. rewrite (proj1 (Other s N)). exact N.
Qed.

(** X11. While the LED of the device is in a mode other than switch, no
    input makes the script write the device's configuration: the
    configuration stays as it is, and the only call an input can add is the
    fetch of the price. *)
Theorem no_write_outside_switch_mode : forall s i s',
  step s i s' ->
  leds_mode (plugs_ui s) <> "switch" ->
  plugs_ui s' = plugs_ui s /\
  (calls s' = calls s \/ calls s' = HTTP_GET PRICE_URL 10 :: calls s).
Proof.
  intros s i s' St N.
  assert (T : forall time t t', tick time t = Ok t' ->
                plugs_ui t' = plugs_ui t /\
                (calls t' = calls t \/ calls t' = HTTP_GET PRICE_URL 10 :: calls t)).
  { intros time t t' H.
    destruct (tick_cases time t) as [[E | E] | [E _]]; rewrite E in H; inversion H;
      split; try reflexivity; [left | right]; reflexivity. }
  assert (W : forall t, leds_mode (plugs_ui t) <> "switch" ->
                plugs_ui (goWhite t) = plugs_ui t /\ calls (goWhite t) = calls t).
  { intros t M. unfold goWhite.
    rewrite (configureLight_other_mode _ _ _ (console_log LogDisconnected t) M).
    split; reflexivity. }
  destruct St as [time s s' H | cloud_enable time ev s s' E | resp s n s' b P H].
  - exact (T _ _ _ H).
  - rewrite handleEvents_dispatch in E.
    destruct (isNullInfo ev); [discriminate E | ]. destruct (isDisconnectEvent ev).
    + inversion E. destruct (W s N) as [U K]. split; [exact U | left; exact K].
    + destruct (isConnectEvent cloud_enable ev); [exact (T _ _ _ E) | ].
      inversion E. split; [reflexivity | left; reflexivity].
  - destruct (responseFailed resp) eqn:F.
    + rewrite (handleResponse_failed _ _ F) in H.
      destruct (isConnected (set_pending n s)); inversion H.
      * split; [reflexivity | left; reflexivity].
      * destruct (W (set_pending n s) N) as [U K].
        split; [exact U | left; exact K].
    + destruct (handleResponse_success_inv _ _ _ _ F H) as [_ [e [_ ->]]].
      destruct (markOnline_frame (set_pending n s)) as [U [_ [K _]]].
      rewrite configureLight_other_mode by (rewrite U; exact N).
      split; [exact U | left; exact K].
Qed.

(** A device whose LED follows the power drawn. *)
Definition powerModeUi : plugsUiConfig :=
  {| leds_mode := "power";
     switch0_on := switch0_on switchModeUi;
     switch0_off := switch0_off switchModeUi |}.

Definition wifiDown : shellyEvent :=
  {| info := InfoObject {| component := FString "wifi"; event := FString "sta_disconnected" |} |}.

Lemma no_write_outside_switch_mode_witness :
  plugs_ui (goWhite (boot defaultPriceColorMap powerModeUi)) = powerModeUi.
Proof.
  apply (proj1 (no_write_outside_switch_mode
                  (boot defaultPriceColorMap powerModeUi)
                  (Event true (clock 12 7) wifiDown)
                  (goWhite (boot defaultPriceColorMap powerModeUi))
                  ltac:(constructor; vm_compute; reflexivity)
                  ltac:(discriminate))).
Defined.

(** ** Calls *)

Definition isHttpGet (c : rpc) : bool :=
  match c with
  | HTTP_GET _ _ => true
  | PLUGS_UI_SetConfig _ => false
  end.

Definition httpGets (l : list rpc) : nat := List.length (filter isHttpGet l).

(** A call as the running script makes them: the fetch of the price with
    timeout 10, or a configuration in switch mode. *)
Definition scriptCall (c : rpc) : Prop :=
  match c with
  | HTTP_GET url timeout => url = PRICE_URL /\ timeout = 10
  | PLUGS_UI_SetConfig config => leds_mode config = "switch"
  end.

Definition addedCalls (s s' : script) (new : list rpc) : Prop :=
  calls s' = new ++ calls s /\ Forall scriptCall new /\ (List.length new <= 1)%nat.

Lemma configureLight_calls : forall v onB offB s,
  exists new, addedCalls s (configureLight v onB offB s) new /\ httpGets new = 0%nat.
Proof.
  intros v onB offB s. unfold configureLight.
  destruct (String.eqb_spec (leds_mode (plugs_ui s)) "switch") as [M | _].
  - exists [PLUGS_UI_SetConfig
              {| leds_mode := leds_mode (plugs_ui s);
                 switch0_on := {| rgb := v; brightness := onB |};
                 switch0_off := {| rgb := v; brightness := offB |} |}].
    split; [ | reflexivity].
    split; [reflexivity | ]. split; [ | cbn; lia].
    constructor; [exact M | constructor].
  - exists []. split; [ | reflexivity].
    split; [reflexivity | ]. split; [constructor | cbn; lia].
Qed.

Lemma goWhite_calls : forall s,
  exists new, addedCalls s (goWhite s) new /\ httpGets new = 0%nat.
Proof.
  intros s. unfold goWhite.
  exact (configureLight_calls (Some white) 50 10 (console_log LogDisconnected s)).
Qed.

Lemma tick_calls : forall time s s',
  tick time s = Ok s' ->
  exists new, addedCalls s s' new /\ pending s' = (pending s + httpGets new)%nat.
Proof.
  intros time s s' H.
  destruct (tick_cases time s) as [[E | E] | [E _]]; rewrite E in H; inversion H.
  - exists []. split; [ | cbn; lia].
    split; [reflexivity | ]. split; [constructor | cbn; lia].
  - exists [HTTP_GET PRICE_URL 10]. split; [ | cbn; lia].
    split; [reflexivity | ]. split; [ | cbn; lia].
    constructor; [split; reflexivity | constructor].
Qed.

(** X12. Every input adds at most one call, and only of two kinds: the
    fetch of the price URL with timeout 10, or a configuration that keeps
    the LED in switch mode.  A response takes one awaited response away and
    never issues a fetch; a tick or an event adds to the awaited responses
    exactly the fetch it issued, if any. *)
Theorem step_calls : forall s i s',
  step s i s' ->
  exists new,
    calls s' = new ++ calls s /\ Forall scriptCall new /\ (List.length new <= 1)%nat /\
    match i with
    | Response _ => httpGets new = 0%nat /\ S (pending s') = pending s
    | _ => pending s' = (pending s + httpGets new)%nat
    end.
Proof.
  intros s i s' St.
  destruct St as [time s s' H | cloud_enable time ev s s' E | resp s n s' b P H].
  - destruct (tick_calls _ _ _ H) as [new [[A [B C]] D]]. exists new. repeat split; assumption.
  - rewrite handleEvents_dispatch in E.
    destruct (isNullInfo ev); [discriminate E | ]. destruct (isDisconnectEvent ev).
    + inversion E. destruct (goWhite_calls s) as [new [[A [B C]] D]].
      exists new. repeat split; try assumption.
      rewrite D. destruct (goWhite_frame s) as [_ [Pw _]]. rewrite Pw. lia.
    + destruct (isConnectEvent cloud_enable ev).
      * destruct (tick_calls _ _ _ E) as [new [[A [B C]] D]].
        exists new. repeat split; assumption.
      * inversion E. exists []. repeat split; [constructor | cbn; lia | cbn; lia].
  - destruct (responseFailed resp) eqn:F.
    + rewrite (handleResponse_failed _ _ F) in H.
      destruct (isConnected (set_pending n s)); inversion H.
      * exists []. repeat split; [constructor | cbn; lia | cbn; lia].
      * destruct (goWhite_calls (set_pending n s)) as [new [[A [B C]] D]].
        exists new. repeat split; try assumption.
        cbn [pending console_log].
        destruct (goWhite_frame (set_pending n s)) as [_ [Pw _]]. rewrite Pw.
        cbn [pending set_pending]. lia.
    + destruct (handleResponse_success_inv _ _ _ _ F H) as [_ [e [_ ->]]].
      destruct (configureLight_calls (shellyRGB e) (onBrightness e) (offBrightness e)
                  (markOnline (set_pending n s))) as [new [[A [B C]] D]].
      destruct (markOnline_frame (set_pending n s)) as [_ [_ [K [Pm _]]]].
      destruct (configureLight_frame (shellyRGB e) (onBrightness e) (offBrightness e)
                  (markOnline (set_pending n s))) as [_ [Pc _]].
      exists new. rewrite K in A. repeat split; try assumption.
      rewrite Pc, Pm. cbn [pending set_pending]. lia.
Qed.

Lemma step_calls_witness :
  exists new,
    calls onlineState = new ++ calls startState /\ Forall scriptCall new /\
    (List.length new <= 1)%nat /\
    httpGets new = 0%nat /\ S (pending onlineState) = pending startState.
Proof.
  exact (step_calls startState (Response (Some (priceResponse 0.05))) onlineState
           onlineState_step).
Defined.

(** ** What a response can lead to *)

Lemma reached_undefined : forall e, reached NaN e = false.
Proof. reflexivity. Qed.

(** X13. The handler returns [true] exactly for a response with status
    200 that it survives, having set the light to an entry of the table,
    and [false] exactly for a missing response or another status, which
    never ends the script.  With status 200 the body [null] ends the script
    by the failed read of [PriceWithTax] as soon as the table has an entry;
    a body that is a number, a string, a boolean or an array has no such
    member and ends it in [die]; and so does any parsed body on an empty
    table. *)
Theorem handleResponse_outcomes : forall resp s,
  (forall s' b, handleResponse resp s = Ok (s', b) ->
     b = negb (responseFailed resp) /\
     (b = true ->
      exists e, In e (priceColorMap s) /\
                s' = configureLight (shellyRGB e) (onBrightness e) (offBrightness e)
                       (markOnline s))) /\
  (responseFailed resp = true -> exists s', handleResponse resp s = Ok (s', false)) /\
  (forall r, resp = Some r -> code r = 200 -> body r = Some JNull ->
     priceColorMap s <> [] ->
     handleResponse resp s = Fatal (Threw "TypeError: cannot read property of null")) /\
  (forall r price, resp = Some r -> code r = 200 -> body r = Some price ->
     price <> JNull -> (forall members, price <> JObject members) ->
     handleResponse resp s = die notFound) /\
  (forall r price, resp = Some r -> code r = 200 -> body r = Some price ->
     priceColorMap s = [] -> handleResponse resp s = die notFound).
Proof.
  intros resp s. split; [ | split; [ | split; [ | split]]].
  - intros s' b H. destruct (responseFailed resp) eqn:F.
    + rewrite (handleResponse_failed _ _ F) in H. inversion H.
      split; [reflexivity | discriminate].
    + destruct (handleResponse_success_inv _ _ _ _ F H) as [-> X].
      split; [reflexivity | intros _; exact X].
  - intros F. rewrite (handleResponse_failed _ _ F). eexists. reflexivity.
  - intros r -> C B N. unfold handleResponse. rewrite C, B. cbn [Z.eqb Pos.eqb].
    fold (markOnline s).
    destruct (markOnline_frame s) as [_ [-> _]].
    destruct (priceColorMap s) as [ | e rest]; [contradiction | reflexivity].
  - intros r price -> C B N O.
    rewrite (handleResponse_200 None NaN eq_refl s r price C B).
    + rewrite (find_never _ _ _ reached_undefined). reflexivity.
    + destruct price; try reflexivity; [contradiction | exfalso; exact (O _ eq_refl)].
  - intros r price -> C B E. unfold handleResponse. rewrite C, B. cbn [Z.eqb Pos.eqb].
    fold (markOnline s).
    destruct (markOnline_frame s) as [_ [-> _]]. rewrite E. reflexivity.
Qed.

Lemma handleResponse_outcomes_witness :
  handleResponse (Some {| code := 200; body := Some (JArray [JNumber 0.05]) |})
    validatedDefault
  = die notFound.
Proof.
  apply (proj1 (proj2 (proj2 (proj2 (handleResponse_outcomes
           (Some {| code := 200; body := Some (JArray [JNumber 0.05]) |})
           validatedDefault))))
           {| code := 200; body := Some (JArray [JNumber 0.05]) |}
           (JArray [JNumber 0.05]) eq_refl eq_refl eq_refl);
    discriminate.
Defined.

(** ** Start *)

Lemma main_run : forall map ui map',
  checkConfig (console_log LogStart (boot map ui))
  = Ok (set_priceColorMap map' (ensureSwitchMode (console_log LogStart (boot map ui)))) ->
  forall time,
  main time (boot map ui)
  = Ok (fetch (goWhite (set_priceColorMap map'
                          (ensureSwitchMode (console_log LogStart (boot map ui)))))).
Proof.
  intros map ui map' E time. unfold main. rewrite E. cbn [bind].
  rewrite disConnected_eq. cbn [bind]. apply tick_offline. apply goWhite_frame.
Qed.

(** X14. The top level of the script ends without a fatal result exactly
    on an accepted table, whatever the device's LED mode and whatever the
    clock text, which it does not read: the script is then not connected,
    one fetch is awaited, and the table is the configured one with its
    device values filled.  On a device already in switch mode the top level
    makes two calls, the white light at 50 and 10 and then the fetch, and
    the device shows the white light. *)
Theorem main_starts_offline : forall map ui time,
  (acceptedTable map ->
   exists s, main time (boot map ui) = Ok s /\
             isConnected s = false /\ pending s = 1%nat /\
             Forall2 filledFrom map (priceColorMap s) /\
             (forall time', main time' (boot map ui) = Ok s) /\
             (leds_mode ui = "switch" ->
              plugs_ui s = whiteUi /\
              calls s = [HTTP_GET PRICE_URL 10; PLUGS_UI_SetConfig whiteUi])) /\
  (~ acceptedTable map -> is_fatal (main time (boot map ui)) = true).
Proof.
  intros map ui time. split.
  - intros A.
    destruct (checkConfig_accepts (console_log LogStart (boot map ui)) A)
      as [map' [_ [R E]]].
    pose proof (main_run map ui map' E) as Run.
    eexists. split; [apply Run | ].
    destruct (goWhite_frame (set_priceColorMap map'
                (ensureSwitchMode (console_log LogStart (boot map ui))))) as [C [P M]].
    destruct (ensureSwitchMode_frame (console_log LogStart (boot map ui)))
      as [_ [_ [P0 _]]].
    split; [exact C | ].
    split; [cbn [pending fetch call_HTTP_GET]; rewrite P; cbn [pending set_priceColorMap];
            rewrite P0; reflexivity | ].
    split; [cbn [priceColorMap fetch call_HTTP_GET]; rewrite M;
            exact (precalculated_filled _ _ R) | ].
    split; [exact Run | ].
    intros S.
    rewrite (ensureSwitchMode_done (console_log LogStart (boot map ui)) S).
    destruct (goWhite_write (set_priceColorMap map' (console_log LogStart (boot map ui))) S)
      as [W K].
    split; [exact W | ]. cbn [calls fetch call_HTTP_GET]. rewrite K. reflexivity.
  - intros N. unfold main.
    destruct (checkConfig (console_log LogStart (boot map ui))) as [s1 | f] eqn:C;
      [ | reflexivity].
    exfalso. apply N. exact (proj1 (checkConfig_Ok_inv _ _ C)).
Qed.

Lemma defaultPriceColorMap_accepted : acceptedTable defaultPriceColorMap.
Proof.
  exact (proj1 (checkConfig_Ok_inv (boot defaultPriceColorMap switchModeUi)
                  validatedDefault checkConfig_default)).
Qed.

Lemma main_starts_offline_witness :
  exists s, main "" (boot defaultPriceColorMap switchModeUi) = Ok s /\
            isConnected s = false /\ pending s = 1%nat /\
            Forall2 filledFrom defaultPriceColorMap (priceColorMap s) /\
            (forall time', main time' (boot defaultPriceColorMap switchModeUi) = Ok s) /\
            (leds_mode switchModeUi = "switch" ->
             plugs_ui s = whiteUi /\
             calls s = [HTTP_GET PRICE_URL 10; PLUGS_UI_SetConfig whiteUi]).
Proof.
  exact (proj1 (main_starts_offline defaultPriceColorMap switchModeUi "")
           defaultPriceColorMap_accepted).
Defined.

(** ** Which entry a message names *)

Lemma brightnessLoop_skip : forall good l,
  Forall brightnessOk good -> brightnessLoop (good ++ l) = brightnessLoop l.
Proof.
  induction good as [ | g good IH]; intros l F; [reflexivity | ].
  inversion F as [ | ? ? [On Off] F']; subst.
  apply brightnessInRange_iff in On, Off.
  cbn [app brightnessLoop]. rewrite On, Off. cbn [negb]. apply IH. exact F'.
Qed.

Lemma brightnessLoop_ok : forall l, Forall brightnessOk l -> brightnessLoop l = Ok tt.
Proof.
  intros l F. rewrite <- (app_nil_r l). rewrite (brightnessLoop_skip l [] F). reflexivity.
Qed.

Lemma precalcLoop_skip : forall good l f,
  Forall (fun e => colorAccepted (color e) = true) good ->
  precalcLoop l = Fatal f -> precalcLoop (good ++ l) = Fatal f.
Proof.
  induction good as [ | g good IH]; intros l f F H; [exact H | ].
  inversion F as [ | ? ? A F']; subst.
  cbn [app precalcLoop].
  destruct (entryRGB_cases g) as [[_ [v ->]] | [N _]]; [ | congruence].
  cbn [bind]. rewrite (IH l f F' H). reflexivity.
Qed.

Lemma entryRGB_rejected : forall e,
  colorAccepted (color e) = false ->
  entryRGB e = die (if startsWithHash (color e) then invalidHex else unknownColor (color e)).
Proof.
  intros e N. unfold entryRGB. unfold colorAccepted in N.
  destruct (startsWithHash (color e)) eqn:H.
  - cbn [bind]. destruct (color e) as [ | marker r]; [discriminate H | ].
    cbn [afterMarker] in N.
    destruct (RGBStringToShellyValues_cases marker r) as [[P _] | [_ E]]; [congruence | exact E].
  - unfold colorNameToRGBString. unfold knownColorName in N.
    destruct (lookupColor COLOR_NAMES (color e)); [discriminate N | reflexivity].
Qed.

(** X15. When the first floor and the order of a table are right, the
    message [checkConfig] dies with names the first entry at fault: for a
    brightness, the colour of the first entry with a value outside
    [0,100], its ON value looked at before its OFF value; and with every
    brightness in range, for a colour, the first entry whose colour is not
    accepted, as an invalid hex value if it starts with the marker and as
    an unknown name otherwise. *)
Theorem checkConfig_names_first_fault : forall s good e rest first others,
  priceColorMap s = good ++ e :: rest ->
  priceColorMap s = first :: others ->
  (fromPriceWithTax first <= 0)%Q ->
  Sorted Qlt (floors (priceColorMap s)) ->
  Forall brightnessOk good ->
  (brightnessInRange (onBrightness e) = false ->
   checkConfig s = die (onBrightnessMessage (color e))) /\
  (brightnessInRange (onBrightness e) = true ->
   brightnessInRange (offBrightness e) = false ->
   checkConfig s = die (offBrightnessMessage (color e))) /\
  (Forall brightnessOk (e :: rest) ->
   Forall (fun x => colorAccepted (color x) = true) good ->
   colorAccepted (color e) = false ->
   checkConfig s
   = die (if startsWithHash (color e) then invalidHex else unknownColor (color e))).
Proof.
  intros s good e rest first others M M1 F S G.
  assert (Start : checkConfig s
                  = (_ <- brightnessLoop (priceColorMap s) ;;
                     map <- precalcLoop (priceColorMap s) ;;
                     Ok (set_priceColorMap map (ensureSwitchMode s)))).
  { unfold checkConfig. fold (ensureSwitchMode s).
    destruct (ensureSwitchMode_frame s) as [-> _]. rewrite M1.
    replace (Qgt_bool (fromPriceWithTax first) 0) with false.
    - rewrite M1 in S. change (floors (first :: others))
        with (fromPriceWithTax first :: floors others) in S.
      destruct (orderLoop_cases others (fromPriceWithTax first)) as [[-> _] | [_ N]];
        [reflexivity | contradiction].
    - symmetry. destruct (Qgt_bool (fromPriceWithTax first) 0) eqn:Q; [ | reflexivity].
      apply Qgt_bool_iff in Q. exfalso. exact (Qlt_not_le _ _ Q F). }
  rewrite Start, M, (brightnessLoop_skip good (e :: rest) G). cbn [brightnessLoop].
  split; [ | split].
  - intros On. rewrite On. reflexivity.
  - intros On Off. rewrite On, Off. reflexivity.
  - intros B A N.
    change (if negb (brightnessInRange (onBrightness e))
            then die (onBrightnessMessage (color e))
            else if negb (brightnessInRange (offBrightness e))
                 then die (offBrightnessMessage (color e))
                 else brightnessLoop rest)
      with (brightnessLoop (e :: rest)).
    rewrite (brightnessLoop_ok _ B). cbn [bind].
    rewrite (precalcLoop_skip good (e :: rest)
               (Died (if startsWithHash (color e) then invalidHex
                      else unknownColor (color e))) A).
    + reflexivity.
    + cbn [precalcLoop]. rewrite (entryRGB_rejected e N). reflexivity.
Qed.

Lemma checkConfig_names_first_fault_witness :
  checkConfig (boot [entryA; entry 0 "green" 80 101; entry 0.09 "nocolor" 150 7] switchModeUi)
  = die (offBrightnessMessage "green").
Proof.
  apply (proj1 (proj2 (checkConfig_names_first_fault
           (boot [entryA; entry 0 "green" 80 101; entry 0.09 "nocolor" 150 7] switchModeUi)
           [entryA] (entry 0 "green" 80 101) [entry 0.09 "nocolor" 150 7]
           entryA [entry 0 "green" 80 101; entry 0.09 "nocolor" 150 7]
           eq_refl eq_refl ltac:(discriminate)
           ltac:(repeat constructor)
           ltac:(repeat constructor; discriminate))));
    reflexivity.
Defined.
